(** * CookieMuncher: the session store and the cookie synchroniser

    A shallow embedding of the popup component [CookieMuncher]
    (CookieMuncher.tsx): its React state, its callbacks and effects, and the
    host calls they issue.  The component state is passed explicitly; a
    callback receives the state of the render that created it (the values
    its closure captured) and runs against the current state and the host. *)

From Stdlib Require Import Ascii String.
From stdpp Require Import base decidable numbers option list.

Set Warnings "-register-all".

Local Open Scope string_scope.
Local Open Scope list_scope.

(** ** JavaScript strings

    A JavaScript string is a sequence of UTF-16 code units; [length] is the
    number of code units and [===] is equality of the sequences. *)

Definition jstring := list N.

Definition js (s : string) : jstring :=
  (λ a, N_of_ascii a) <$> list_ascii_of_string s.

(** [s] used as a condition: the empty string is falsy. *)
Definition truthy_string (s : jstring) : bool :=
  match s with [] => false | _ => true end.

(** The code units [String.prototype.trim] strips: ECMAScript's WhiteSpace
    (TAB, VT, FF, SP, NBSP, ZWNBSP and the space separators) and
    LineTerminator (LF, CR, LS, PS).  All of them are single code units. *)
Definition is_white_space (c : N) : bool :=
  (  (c =? 0x0009) || (c =? 0x000A) || (c =? 0x000B) || (c =? 0x000C)
  || (c =? 0x000D) || (c =? 0x0020) || (c =? 0x00A0) || (c =? 0x1680)
  || ((0x2000 <=? c) && (c <=? 0x200A))
  || (c =? 0x2028) || (c =? 0x2029) || (c =? 0x202F) || (c =? 0x205F)
  || (c =? 0x3000) || (c =? 0xFEFF))%N.

Fixpoint trimStart (s : jstring) : jstring :=
  match s with
  | c :: s' => if is_white_space c then trimStart s' else s
  | [] => []
  end.

Definition trimEnd (s : jstring) : jstring := rev (trimStart (rev s)).

Definition trim (s : jstring) : jstring := trimEnd (trimStart s).

(** ** Types *)

Inductive SameSiteStatus := no_restriction | lax | strict | unspecified.

Global Instance SameSiteStatus_eq_dec : EqDecision SameSiteStatus.
Proof. solve_decision. Defined.

(** [chrome.cookies.Cookie], with the attributes the component reads.  A
    JavaScript number is an integer here: the component only copies numbers
    and tests them for truthiness. *)
Module Cookie.
Record t := mk {
  name : jstring;
  value : jstring;
  domain : jstring;
  path : jstring;
  secure : bool;
  httpOnly : bool;
  sameSite : SameSiteStatus;
  expirationDate : option Z
}.
End Cookie.
Abbreviation Cookie := Cookie.t.

Global Instance Cookie_eq_dec : EqDecision Cookie.
Proof. solve_decision. Defined.

(** [interface Session]. *)
Module Session.
Record t := mk {
  id : jstring;
  name : jstring;
  tabId : option Z;
  cookies : list Cookie
}.

(** [{ ...session, tabId: v }] *)
Definition with_tabId (session : t) (v : option Z) : t :=
  mk (id session) (name session) v (cookies session).

(** [{ ...session, cookies: v }] *)
Definition with_cookies (session : t) (v : list Cookie) : t :=
  mk (id session) (name session) (tabId session) v.
End Session.
Abbreviation Session := Session.t.

Global Instance Session_eq_dec : EqDecision Session.
Proof. solve_decision. Defined.

(** A number used as a condition: [undefined] and [0] are falsy. *)
Definition truthy_number (n : option Z) : bool :=
  match n with Some z => negb (z =? 0)%Z | None => false end.

(** A [string | null] used as a condition: [null] and the empty string are
    falsy. *)
Definition truthy_id (i : option jstring) : bool :=
  match i with Some s => truthy_string s | None => false end.

Definition MAX_SESSION_NAME_LENGTH : nat := 20.

Definition truncateString (str : jstring) (length : nat) : jstring :=
  if bool_decide (length < List.length str) then take length str ++ js "..."
  else str.

(** [l.find(P)] and [l.findIndex(P)] *)
Definition find {A} (P : A → Prop) `{∀ x, Decision (P x)} (l : list A) : option A :=
  snd <$> list_find P l.

Definition findIndex {A} (P : A → Prop) `{∀ x, Decision (P x)} (l : list A) : Z :=
  match list_find P l with
  | Some (i, _) => Z.of_nat i
  | None => -1
  end.

(** [chrome.tabs.Tab], with the fields the component reads. *)
Module Tab.
Record t := mk {
  id : option Z;
  url : option jstring
}.
End Tab.
Abbreviation Tab := Tab.t.

(** [chrome.cookies.SetProperties]: the component passes every field but
    [expirationDate] on each call. *)
Module SetProperties.
Record t := mk {
  url : jstring;
  name : jstring;
  value : jstring;
  domain : jstring;
  path : jstring;
  secure : bool;
  httpOnly : bool;
  sameSite : SameSiteStatus;
  expirationDate : option Z
}.
End SetProperties.
Abbreviation SetProperties := SetProperties.t.

(** [chrome.cookies.OnChangedInfo]. *)
Module OnChangedInfo.
Record t := mk {
  removed : bool;
  cookie : Cookie
}.
End OnChangedInfo.
Abbreviation OnChangedInfo := OnChangedInfo.t.

(** ** Stored values

    [chrome.storage.local] keeps JSON data, and the startup load inspects it
    dynamically ([typeof], [Array.isArray]), so stored data is untyped. *)

Inductive Value :=
| VUndefined
| VNull
| VBoolean (b : bool)
| VNumber (z : Z)
| VString (s : jstring)
| VArray (elements : list Value)
| VObject (properties : list (string * Value)).

(** A value used as a condition. *)
Definition truthy (v : Value) : bool :=
  match v with
  | VUndefined | VNull => false
  | VBoolean b => b
  | VNumber z => negb (z =? 0)%Z
  | VString s => truthy_string s
  | VArray _ | VObject _ => true
  end.

Fixpoint assoc (k : string) (properties : list (string * Value)) : Value :=
  match properties with
  | (k', v) :: rest => if String.eqb k k' then v else assoc k rest
  | [] => VUndefined
  end.

(** [v.k] for the data properties of stored JSON: a property of an object,
    [undefined] on the other values.  (On [null] and [undefined] JavaScript
    throws instead; the load guards the access with [s &&].) *)
Definition get (v : Value) (k : string) : Value :=
  match v with
  | VObject properties => assoc k properties
  | _ => VUndefined
  end.

(** [typeof v === 'string'] *)
Definition typeof_string (v : Value) : bool :=
  match v with VString _ => true | _ => false end.

(** [Array.isArray(v)] *)
Definition isArray (v : Value) : bool :=
  match v with VArray _ => true | _ => false end.

(** *** Sessions as stored values

    What [chrome.storage.local.set({ sessions })] serialises: a property
    whose value is [undefined] is left out. *)

Definition sameSite_to_string (s : SameSiteStatus) : jstring :=
  match s with
  | no_restriction => js "no_restriction"
  | lax => js "lax"
  | strict => js "strict"
  | unspecified => js "unspecified"
  end.

Definition optional_number (k : string) (n : option Z) : list (string * Value) :=
  match n with Some z => [(k, VNumber z)] | None => [] end.

Definition cookie_to_value (c : Cookie) : Value :=
  VObject ([ ("name", VString (Cookie.name c));
             ("value", VString (Cookie.value c));
             ("domain", VString (Cookie.domain c));
             ("path", VString (Cookie.path c));
             ("secure", VBoolean (Cookie.secure c));
             ("httpOnly", VBoolean (Cookie.httpOnly c));
             ("sameSite", VString (sameSite_to_string (Cookie.sameSite c))) ]
           ++ optional_number "expirationDate" (Cookie.expirationDate c)).

Definition session_to_value (s : Session) : Value :=
  VObject ([ ("id", VString (Session.id s));
             ("name", VString (Session.name s)) ]
           ++ optional_number "tabId" (Session.tabId s)
           ++ [ ("cookies", VArray (cookie_to_value <$> Session.cookies s)) ]).

(** The reading of a stored value at the type the state is declared with
    ([Session[]]): the component applies no conversion, it just uses the
    fields. *)

Definition as_string (v : Value) : jstring :=
  match v with VString s => s | _ => [] end.

Definition as_boolean (v : Value) : bool :=
  match v with VBoolean b => b | _ => false end.

Definition as_number (v : Value) : option Z :=
  match v with VNumber z => Some z | _ => None end.

Definition as_elements (v : Value) : list Value :=
  match v with VArray vs => vs | _ => [] end.

Definition as_sameSite (v : Value) : SameSiteStatus :=
  if bool_decide (as_string v = js "no_restriction") then no_restriction
  else if bool_decide (as_string v = js "lax") then lax
  else if bool_decide (as_string v = js "strict") then strict
  else unspecified.

Definition value_to_cookie (v : Value) : Cookie :=
  Cookie.mk (as_string (get v "name")) (as_string (get v "value"))
            (as_string (get v "domain")) (as_string (get v "path"))
            (as_boolean (get v "secure")) (as_boolean (get v "httpOnly"))
            (as_sameSite (get v "sameSite"))
            (as_number (get v "expirationDate")).

Definition value_to_session (v : Value) : Session :=
  Session.mk (as_string (get v "id")) (as_string (get v "name"))
             (as_number (get v "tabId"))
             (value_to_cookie <$> as_elements (get v "cookies")).

(** ** Component state: the five [useState] cells *)

Record State := mkState {
  sessions : list Session;
  activeSessionId : option jstring;
  newSessionName : jstring;
  loading : bool;
  error : option string
}.

Definition initial_state : State := mkState [] None [] true None.

(** ** The host

    The browser platform the component calls (tabs, cookies, key-value
    storage) and the built-ins [uuidv4] and [URL] are not code of the
    component; they are modelled here after section 6 of the specification. *)

(** The calls the component issues. *)
Inductive HostCall :=
| tabs_create
| tabs_remove (tabId : Z)
| tabs_get (tabId : Z)
| cookies_getAll (url : jstring)
| cookies_remove (url name : jstring)
| cookies_set (details : SetProperties)
| storage_get
| storage_set (items : Value).

(** Modelled from the spec: the host.  It keeps the open tabs, the live
    cookie jar and the value stored for the session list; [calls] records
    every call it receives, oldest first, and [rejects] says which calls
    fail.  [visible url c] says whether cookie [c] is in the scope of [url];
    [new_tab] and [new_uuid] are what the next [chrome.tabs.create] and
    [uuidv4()] return; [href s] is [new URL(s).href], [None] when the
    constructor throws. *)
Record Host := mkHost {
  tabs : list Tab;
  jar : list Cookie;
  storage : option Value;
  calls : list HostCall;
  rejects : HostCall → bool;
  visible : jstring → Cookie → bool;
  new_tab : Tab;
  new_uuid : jstring;
  href : jstring → option jstring
}.

(** Modelled from the spec: what identifies a cookie in the jar.  A set call
    overwrites the equivalent cookie, the one with the same name, domain and
    path. *)
Definition cookie_key (c : Cookie) : jstring * jstring * jstring :=
  (Cookie.name c, Cookie.domain c, Cookie.path c).

(** Modelled from the spec: the cookie a set call stores, with the
    attributes it was given. *)
Definition details_cookie (d : SetProperties) : Cookie :=
  Cookie.mk (SetProperties.name d) (SetProperties.value d)
            (SetProperties.domain d) (SetProperties.path d)
            (SetProperties.secure d) (SetProperties.httpOnly d)
            (SetProperties.sameSite d) (SetProperties.expirationDate d).

(** Modelled from the spec: get-all, scoped by URL. *)
Definition jar_getAll (scope : jstring → Cookie → bool) (url : jstring)
    (jar : list Cookie) : list Cookie :=
  filter (λ c, scope url c) jar.

(** Modelled from the spec: remove, by URL and name.  The cookies of that
    name in the scope of the URL go. *)
Definition jar_remove (scope : jstring → Cookie → bool) (url name : jstring)
    (jar : list Cookie) : list Cookie :=
  filter (λ c, ¬ (scope url c ∧ Cookie.name c = name)) jar.

(** Modelled from the spec: set.  The cookie replaces the equivalent one, if
    any. *)
Definition jar_set (d : SetProperties) (jar : list Cookie) : list Cookie :=
  filter (λ c, cookie_key c ≠ cookie_key (details_cookie d)) jar
    ++ [details_cookie d].

Definition with_tabs (h : Host) (v : list Tab) : Host :=
  mkHost v (jar h) (storage h) (calls h) (rejects h) (visible h)
         (new_tab h) (new_uuid h) (href h).

Definition with_jar (h : Host) (v : list Cookie) : Host :=
  mkHost (tabs h) v (storage h) (calls h) (rejects h) (visible h)
         (new_tab h) (new_uuid h) (href h).

Definition with_storage (h : Host) (v : option Value) : Host :=
  mkHost (tabs h) (jar h) v (calls h) (rejects h) (visible h)
         (new_tab h) (new_uuid h) (href h).

Definition with_calls (h : Host) (v : list HostCall) : Host :=
  mkHost (tabs h) (jar h) (storage h) v (rejects h) (visible h)
         (new_tab h) (new_uuid h) (href h).

(** ** Callbacks as state transformers

    A callback runs against the component state and the host, and either
    returns or throws (a rejected promise under [await]).  The callbacks are
    run one at a time: no other callback runs while one is suspended. *)

Record World := mkWorld {
  state : State;
  host : Host
}.

Inductive Outcome (A : Type) :=
| Returned (a : A)
| Thrown.
Arguments Returned {A} a.
Arguments Thrown {A}.

Definition Handler (A : Type) : Type := World → Outcome A * World.

Global Instance Handler_ret : MRet Handler :=
  λ A a w, (Returned a, w).

Global Instance Handler_bind : MBind Handler :=
  λ A B k m w,
    match m w with
    | (Returned a, w') => k a w'
    | (Thrown, w') => (Thrown, w')
    end.

(** [try { body } catch { handler }] *)
Definition try_catch {A} (body handler : Handler A) : Handler A :=
  λ w,
    match body w with
    | (Returned a, w') => (Returned a, w')
    | (Thrown, w') => handler w'
    end.

(** [for (const x of l) { body }] *)
Fixpoint for_of {A} (l : list A) (body : A → Handler unit) : Handler unit :=
  match l with
  | [] => mret ()
  | x :: l' => body x ;; for_of l' body
  end.

(** The world a callback leaves behind. *)
Definition run {A} (m : Handler A) (w : World) : World := (m w).2.

(** *** State setters.  [setSessions] takes an updater, applied to the
    current list. *)

Definition update_state (f : State → State) : Handler unit :=
  λ w, (Returned (), mkWorld (f (state w)) (host w)).

Definition setSessions (f : list Session → list Session) : Handler unit :=
  update_state (λ st, mkState (f (sessions st)) (activeSessionId st)
                              (newSessionName st) (loading st) (error st)).

Definition setActiveSessionId (v : option jstring) : Handler unit :=
  update_state (λ st, mkState (sessions st) v
                              (newSessionName st) (loading st) (error st)).

Definition setNewSessionName (v : jstring) : Handler unit :=
  update_state (λ st, mkState (sessions st) (activeSessionId st)
                              v (loading st) (error st)).

Definition setLoading (v : bool) : Handler unit :=
  update_state (λ st, mkState (sessions st) (activeSessionId st)
                              (newSessionName st) v (error st)).

Definition setError (v : option string) : Handler unit :=
  update_state (λ st, mkState (sessions st) (activeSessionId st)
                              (newSessionName st) (loading st) v).

(** *** Host calls: the call is recorded, then it fails or takes effect. *)

Definition host_call {A} (c : HostCall) (effect : Host → A * Host) : Handler A :=
  λ w,
    let h := with_calls (host w) (calls (host w) ++ [c]) in
    if rejects h c then (Thrown, mkWorld (state w) h)
    else let '(a, h') := effect h in (Returned a, mkWorld (state w) h').

Definition chrome_tabs_create : Handler Tab :=
  host_call tabs_create (λ h, (new_tab h, with_tabs h (tabs h ++ [new_tab h]))).

Definition chrome_tabs_remove (tabId : Z) : Handler unit :=
  host_call (tabs_remove tabId)
    (λ h, ((), with_tabs h (filter (λ t, Tab.id t ≠ Some tabId) (tabs h)))).

Definition chrome_tabs_get (tabId : Z) : Handler (option Tab) :=
  host_call (tabs_get tabId)
    (λ h, (find (λ t, Tab.id t = Some tabId) (tabs h), h)).

Definition chrome_cookies_getAll (url : jstring) : Handler (list Cookie) :=
  host_call (cookies_getAll url) (λ h, (jar_getAll (visible h) url (jar h), h)).

Definition chrome_cookies_remove (url name : jstring) : Handler unit :=
  host_call (cookies_remove url name)
    (λ h, ((), with_jar h (jar_remove (visible h) url name (jar h)))).

Definition chrome_cookies_set (details : SetProperties) : Handler unit :=
  host_call (cookies_set details)
    (λ h, ((), with_jar h (jar_set details (jar h)))).

(** [chrome.storage.local.get({ sessions: [] })]: the stored list, or the
    default [[]] when nothing is stored. *)
Definition chrome_storage_local_get : Handler Value :=
  host_call storage_get (λ h, (default (VArray []) (storage h), h)).

Definition chrome_storage_local_set (items : Value) : Handler unit :=
  host_call (storage_set items) (λ h, ((), with_storage h (Some items))).

Definition uuidv4 : Handler jstring :=
  λ w, (Returned (new_uuid (host w)), w).

(** [new URL(s).href]; the constructor throws on a string that is no URL. *)
Definition URL_href (s : jstring) : Handler jstring :=
  λ w, match href (host w) s with
       | Some u => (Returned u, w)
       | None => (Thrown, w)
       end.

(** ** The component

    Every callback takes [render], the state of the render that created it:
    inside the callback [sessions] and [activeSessionId] are those of
    [render], whatever updates the callback has queued since.
    [console.error] is not modelled. *)

Definition createSession (render : State) (name : jstring) : Handler unit :=
  if negb (truthy_string (trim name)) then
    setError (Some "Session name cannot be empty.")
  else if bool_decide (Exists (λ session, Session.name session = trim name)
                              (sessions render)) then
    setError (Some "A session with this name already exists.")
  else if bool_decide (MAX_SESSION_NAME_LENGTH < length name) then
    setError (Some "Session name cannot be longer than 20 characters.")
  else
    id ← uuidv4;
    let newSession := Session.mk id (trim name) None [] in
    setSessions (λ prevSessions, prevSessions ++ [newSession]);;
    setActiveSessionId (Some (Session.id newSession));;
    try_catch
      (tab ← chrome_tabs_create;
       setSessions (λ prevSessions,
         (λ session,
            if bool_decide (Session.id session = Session.id newSession)
            then Session.with_tabId session (Tab.id tab)
            else session) <$> prevSessions))
      (setError (Some "Failed to create new tab.");;
       setSessions (λ prevSessions,
         filter (λ s, Session.id s ≠ Session.id newSession) prevSessions);;
       setActiveSessionId None);;
    setNewSessionName [];;
    setError None.

Definition cookie_url (cookie : Cookie) : jstring :=
  (if Cookie.secure cookie then js "https://" else js "http://")
    ++ Cookie.domain cookie ++ Cookie.path cookie.

Definition deleteSession (render : State) (id : jstring) : Handler unit :=
  match find (λ session, Session.id session = id) (sessions render) with
  | Some sessionToDelete =>
      match Session.tabId sessionToDelete with
      | Some tabId =>
          if truthy_number (Some tabId)
          then try_catch (chrome_tabs_remove tabId) (mret ())
          else mret ()
      | None => mret ()
      end;;
      try_catch
        (for_of (Session.cookies sessionToDelete) (λ cookie,
           chrome_cookies_remove (cookie_url cookie) (Cookie.name cookie)))
        (setError
           (Some "Failed to remove session cookies.  Please check the console."));;
      setSessions (λ prevSessions,
        filter (λ session, Session.id session ≠ id) prevSessions);;
      if bool_decide (activeSessionId render = Some id) then
        setActiveSessionId
          (if bool_decide (1 < length (sessions render))
           then Session.id <$> sessions render !! 0%nat
           else None)
      else mret ()
  | None => mret ()
  end.

Definition switchSession (id : jstring) : Handler unit :=
  setActiveSessionId (Some id).

Definition cookieDetails (url : jstring) (cookie : Cookie) : SetProperties :=
  SetProperties.mk url (Cookie.name cookie) (Cookie.value cookie)
    (Cookie.domain cookie) (Cookie.path cookie)
    (Cookie.secure cookie) (Cookie.httpOnly cookie) (Cookie.sameSite cookie)
    (if truthy_number (Cookie.expirationDate cookie)
     then Cookie.expirationDate cookie
     else None).

Definition handleCookieManagement (render : State) (tabId : Z)
    (sessionId : jstring) : Handler unit :=
  try_catch
    (match find (λ s, Session.id s = sessionId) (sessions render) with
     | None => mret ()
     | Some session =>
         tab ← chrome_tabs_get tabId;
         match tab ≫= Tab.url with
         | None => mret ()
         | Some tab_url =>
             if negb (truthy_string tab_url) then mret ()
             else
               url ← URL_href tab_url;
               currentCookies ← chrome_cookies_getAll url;
               setSessions (λ prevSessions,
                 (λ s, if bool_decide (Session.id s = sessionId)
                       then Session.with_cookies s currentCookies
                       else s) <$> prevSessions);;
               let sessionCookieNames :=
                 Cookie.name <$> Session.cookies session in
               for_of currentCookies (λ cookie,
                 if negb (bool_decide (Cookie.name cookie ∈ sessionCookieNames))
                 then chrome_cookies_remove url (Cookie.name cookie)
                 else mret ());;
               for_of (Session.cookies session) (λ cookie,
                 chrome_cookies_set (cookieDetails url cookie))
         end
     end)
    (setError (Some "Error managing cookies. Please check console.")).

(** The shape check of the startup load. *)
Definition valid_shape (s : Value) : bool :=
  truthy s && typeof_string (get s "id") && typeof_string (get s "name")
    && isArray (get s "cookies").

Definition loadSessions : Handler unit :=
  try_catch
    (result_sessions ← chrome_storage_local_get;
     if truthy result_sessions && isArray result_sessions then
       let validatedSessions :=
         value_to_session
           <$> filter (λ s, valid_shape s) (as_elements result_sessions) in
       setSessions (λ _, validatedSessions);;
       if bool_decide (0 < length validatedSessions) then
         setActiveSessionId (Session.id <$> validatedSessions !! 0%nat)
       else mret ()
     else mret ())
    (setError (Some "Failed to load sessions. Please check console."));;
  setLoading false.

Definition saveSessions (render : State) : Handler unit :=
  if negb (loading render) then
    try_catch
      (chrome_storage_local_set
         (VArray (session_to_value <$> sessions render)))
      (setError (Some "Failed to save sessions. Please check console."))
  else mret ().

Definition handleTabActivated (render : State) (tabId : Z) : Handler unit :=
  match activeSessionId render with
  | Some activeSessionId =>
      if truthy_string activeSessionId
      then handleCookieManagement render tabId activeSessionId
      else mret ()
  | None => mret ()
  end.

Definition handleTabUpdated (render : State) (tabId : Z)
    (status_complete : bool) : Handler unit :=
  if status_complete then handleTabActivated render tabId else mret ().

Definition handleTabCreated (render : State) (tab : Tab) : Handler unit :=
  if truthy_id (activeSessionId render) then
    match find (λ s, Some (Session.id s) = activeSessionId render)
               (sessions render) with
    | Some session =>
        if negb (truthy_number (Session.tabId session)) then
          setSessions (λ prevSessions,
            (λ s, if bool_decide (Some (Session.id s) = activeSessionId render)
                  then Session.with_tabId s (Tab.id tab)
                  else s) <$> prevSessions)
        else mret ()
    | None => mret ()
    end
  else mret ().

Definition handleCookieChanged (render : State) (changeInfo : OnChangedInfo)
    : Handler unit :=
  let cookie := OnChangedInfo.cookie changeInfo in
  if OnChangedInfo.removed changeInfo then
    setSessions (λ prevSessions,
      (λ session,
         if truthy_id (activeSessionId render) then
           Session.with_cookies session
             (filter (λ c, Cookie.name c ≠ Cookie.name cookie)
                     (Session.cookies session))
         else session) <$> prevSessions)
  else
    setSessions (λ prevSessions,
      (λ session,
         if truthy_id (activeSessionId render) then
           let existingCookieIndex :=
             findIndex (λ c, Cookie.name c = Cookie.name cookie)
                       (Session.cookies session) in
           if bool_decide (-1 < existingCookieIndex)%Z then
             let updatedCookies :=
               <[Z.to_nat existingCookieIndex := cookie]>
                 (Session.cookies session) in
             Session.with_cookies session updatedCookies
           else
             Session.with_cookies session (Session.cookies session ++ [cookie])
         else session) <$> prevSessions).

(** ** What the component renders

    The data the JSX shows, without its styling: while [loading] the
    spinner; afterwards the state of the New Session button, the error
    banner, the hint of the empty list, a row per session (its name as
    shown, and whether it is marked as the active one) and the line of the
    settings panel about the active session ([None]: No active session). *)

Inductive View :=
| LoadingView
| MainView (button_disabled : bool) (banner : option string)
           (empty_hint : bool) (rows : list (jstring * bool))
           (active_line : option jstring).

Definition session_row (render : State) (session : Session) : jstring * bool :=
  (truncateString (Session.name session) MAX_SESSION_NAME_LENGTH,
   bool_decide (activeSessionId render = Some (Session.id session))).

(** [sessions.find(s => s.id === activeSessionId)?.name || 'Unknown'] *)
Definition active_session_name (render : State) : jstring :=
  match find (λ s, Some (Session.id s) = activeSessionId render)
             (sessions render) with
  | Some s =>
      if truthy_string (Session.name s) then Session.name s else js "Unknown"
  | None => js "Unknown"
  end.

(** [error] used as a condition: [null] and the empty string are falsy. *)
Definition truthy_error (e : option string) : bool :=
  match e with
  | Some EmptyString | None => false
  | Some _ => true
  end.

Definition view (render : State) : View :=
  if loading render then LoadingView
  else
    MainView
      (negb (truthy_string (trim (newSessionName render))))
      (if truthy_error (error render) then error render else None)
      (bool_decide (length (sessions render) = 0%nat)
         && negb (truthy_error (error render)))
      (session_row render <$> sessions render)
      (if truthy_id (activeSessionId render)
       then Some (active_session_name render)
       else None).

(** The gestures on a row: a click on the row switches to its session; the
    row's delete control deletes it. *)
Definition onRowClick (render : State) (row : nat) : Handler unit :=
  match sessions render !! row with
  | Some session => switchSession (Session.id session)
  | None => mret ()
  end.

Definition onRowDelete (render : State) (row : nat) : Handler unit :=
  match sessions render !! row with
  | Some session => deleteSession render (Session.id session)
  | None => mret ()
  end.

(** ** Predicates of the specification *)

(** The three messages [createSession] reports for a bad name. *)
Definition ValidationError (msg : string) : Prop :=
  msg = "Session name cannot be empty."
  ∨ msg = "A session with this name already exists."
  ∨ msg = "Session name cannot be longer than 20 characters.".

(** The active session id, if set, is the id of a session in the list. *)
Definition active_exists (st : State) : Prop :=
  ∀ id, activeSessionId st = Some id → id ∈ Session.id <$> sessions st.

(** A callback run on the state it was created from. *)
Definition dispatch {A} (callback : State → Handler A) (w : World) : World :=
  run (callback (state w)) w.

(** A name that passes the three checks of [createSession]. *)
Definition valid_name (st : State) (name : jstring) : Prop :=
  trim name ≠ []
  ∧ length name ≤ MAX_SESSION_NAME_LENGTH
  ∧ trim name ∉ Session.name <$> sessions st.

Global Instance valid_name_dec st name : Decision (valid_name st name).
Proof. unfold valid_name. apply _. Defined.

(** [m] returns, and leaves the session list and the active id alone. *)
Definition returns_framing (m : Handler unit) : Prop :=
  ∀ w, ∃ w', m w = (Returned (), w')
    ∧ sessions (state w') = sessions (state w)
    ∧ activeSessionId (state w') = activeSessionId (state w).

(** Whatever [m] does, it leaves the component state alone. *)
Definition host_only {A} (m : Handler A) : Prop :=
  ∀ w, state (m w).2 = state w.

(** The shape check in the specification's words: the entry's id is a
    string, its name is a string and its cookies field is an array.  (The
    check of the source is [valid_shape].) *)
Definition well_shaped (s : Value) : Prop :=
  typeof_string (get s "id") = true
  ∧ typeof_string (get s "name") = true
  ∧ isArray (get s "cookies") = true.

Global Instance well_shaped_dec s : Decision (well_shaped s).
Proof. unfold well_shaped. apply _. Defined.

(** The host after one turn of the removal loop and of the set loop, when it
    accepts the call. *)
Definition remove_unknown (url : jstring) (sessionCookieNames : list jstring)
    (h : Host) (cookie : Cookie) : Host :=
  if bool_decide (Cookie.name cookie ∈ sessionCookieNames) then h
  else with_jar (with_calls h (calls h ++ [cookies_remove url (Cookie.name cookie)]))
                (jar_remove (visible h) url (Cookie.name cookie) (jar h)).

Definition impose (url : jstring) (h : Host) (cookie : Cookie) : Host :=
  with_jar (with_calls h (calls h ++ [cookies_set (cookieDetails url cookie)]))
           (jar_set (cookieDetails url cookie) (jar h)).

(** The cookie the jar holds after [set(cookieDetails url cookie)]. *)
Definition imposed (url : jstring) (cookie : Cookie) : Cookie :=
  details_cookie (cookieDetails url cookie).

Definition accepts_all (h : Host) : Prop := ∀ c, rejects h c = false.

(** Session names are pairwise different. *)
Definition names_unique (st : State) : Prop :=
  NoDup (Session.name <$> sessions st).

(** Session ids are pairwise different. *)
Definition ids_unique (st : State) : Prop :=
  NoDup (Session.id <$> sessions st).

(** Every session name is non-empty, trimmed and within the length bound. *)
Definition names_well_formed (st : State) : Prop :=
  ∀ s, s ∈ sessions st →
    Session.name s ≠ []
    ∧ trim (Session.name s) = Session.name s
    ∧ length (Session.name s) ≤ MAX_SESSION_NAME_LENGTH.

(** The cookies a session records have pairwise different names. *)
Definition cookie_names_unique (st : State) : Prop :=
  ∀ s, s ∈ sessions st → NoDup (Cookie.name <$> Session.cookies s).

(** The host after one turn of the removal loop of [deleteSession], when it
    accepts the call. *)
Definition forget (h : Host) (cookie : Cookie) : Host :=
  with_jar (with_calls h (calls h ++ [cookies_remove (cookie_url cookie)
                                                     (Cookie.name cookie)]))
           (jar_remove (visible h) (cookie_url cookie) (Cookie.name cookie)
                       (jar h)).

(** The call that closes the tab of a session, if it has one. *)
Definition close_call (session : Session) : list HostCall :=
  match Session.tabId session with
  | Some tabId => if truthy_number (Some tabId) then [tabs_remove tabId] else []
  | None => []
  end.

(** The host rejects the removal of one of the cookies. *)
Definition rejects_removal (h : Host) (cookies : list Cookie) : Prop :=
  Exists (λ c, rejects h (cookies_remove (cookie_url c) (Cookie.name c)) = true)
         cookies.

(** Whatever [m] does, the host rejects the same calls afterwards. *)
Definition keeps_rejects {A} (m : Handler A) : Prop :=
  ∀ w, rejects (host (m w).2) = rejects (host w).

(** [{ ...s, cookies }] for the sessions with the id, as the pass records
    the fetched cookies. *)
Definition record_cookies (sessionId : jstring) (cookies : list Cookie)
    (l : list Session) : list Session :=
  (λ s, if bool_decide (Session.id s = sessionId)
        then Session.with_cookies s cookies
        else s) <$> l.

(** The two list updates of [handleCookieChanged]: the cookies not named
    like the notification's cookie, and the list with the notification's
    cookie in the place of the first cookie of its name, or at the end. *)
Definition without_cookie (cookie : Cookie) (cookies : list Cookie) : list Cookie :=
  filter (λ c, Cookie.name c ≠ Cookie.name cookie) cookies.

Definition with_cookie (cookie : Cookie) (cookies : list Cookie) : list Cookie :=
  let existingCookieIndex :=
    findIndex (λ c, Cookie.name c = Cookie.name cookie) cookies in
  if bool_decide (-1 < existingCookieIndex)%Z
  then <[Z.to_nat existingCookieIndex := cookie]> cookies
  else cookies ++ [cookie].

Definition changed_cookies (changeInfo : OnChangedInfo)
    (cookies : list Cookie) : list Cookie :=
  if OnChangedInfo.removed changeInfo
  then without_cookie (OnChangedInfo.cookie changeInfo) cookies
  else with_cookie (OnChangedInfo.cookie changeInfo) cookies.

(** ** Sample data *)

Definition accepting (c : HostCall) : bool := false.

Definition no_new_tab (c : HostCall) : bool :=
  match c with tabs_create => true | _ => false end.

Definition sample_host (rejects : HostCall → bool) (jar : list Cookie) : Host :=
  mkHost [Tab.mk (Some 7%Z) (Some (js "https://example.com/"))] jar None []
         rejects (λ _ _, true) (Tab.mk (Some 8%Z) None) (js "uuid-1") Some.

Definition sample_cookie (name value path : string) : Cookie :=
  Cookie.mk (js name) (js value) (js "example.com") (js path)
            false false lax None.

Definition session_a : Session :=
  Session.mk (js "a") (js "Alice") None [sample_cookie "x" "1" "/"].

Definition session_b : Session :=
  Session.mk (js "b") (js "Bob") None
             [sample_cookie "x" "1" "/"; sample_cookie "y" "2" "/"].

(** Two sessions, the first one active. *)
Definition two_sessions : State :=
  mkState [session_a; session_b] (Some (js "a")) [] false None.

Definition empty_world (rejects : HostCall → bool) : World :=
  mkWorld (mkState [] None [] false None) (sample_host rejects []).

Definition two_sessions_world : World :=
  mkWorld two_sessions (sample_host accepting []).

(** Stored entries of every kind: two sessions and five entries that fail
    the shape check. *)
Definition sample_entries : list Value :=
  [ session_to_value session_a;
    VNull;
    VNumber 3;
    VObject [("id", VNumber 1); ("name", VString (js "n")); ("cookies", VArray [])];
    VObject [("id", VString (js "c")); ("cookies", VArray [])];
    VObject [("id", VString (js "d")); ("name", VString (js "D"));
             ("cookies", VString (js "none"))];
    session_to_value session_b ].

Definition stored_world : World :=
  mkWorld two_sessions
          (with_storage (sample_host accepting []) (Some (VArray sample_entries))).

(** A session that records two cookies with one name, domain and path, and
    a jar that holds a cookie of that name and one the session does not
    record. *)
Definition session_dup : Session :=
  Session.mk (js "d") (js "Dup") (Some 7%Z)
             [sample_cookie "x" "1" "/"; sample_cookie "x" "2" "/"].

(** A session that records two cookies named x with different paths. *)
Definition session_two_paths : Session :=
  Session.mk (js "d") (js "Dup") (Some 7%Z)
             [sample_cookie "x" "0" "/app"; sample_cookie "x" "2" "/"].

Definition sample_jar : list Cookie :=
  [sample_cookie "x" "0" "/"; sample_cookie "t" "9" "/"].

Definition dup_world : World :=
  mkWorld (mkState [session_dup] (Some (js "d")) [] false None)
          (sample_host accepting sample_jar).

Definition reconcile_world : World :=
  mkWorld two_sessions (sample_host accepting sample_jar).

(** Hosts that reject the cookie removals, the closing of tabs, the cookie
    calls that change the jar, and the fetch of the cookies. *)
Definition no_cookie_removal (c : HostCall) : bool :=
  match c with cookies_remove _ _ => true | _ => false end.

Definition no_tab_close (c : HostCall) : bool :=
  match c with tabs_remove _ => true | _ => false end.

Definition no_cookie_set (c : HostCall) : bool :=
  match c with cookies_set _ => true | _ => false end.

Definition no_cookie_fetch (c : HostCall) : bool :=
  match c with cookies_getAll _ => true | _ => false end.

Definition dup_world_on (rejects : HostCall → bool) : World :=
  mkWorld (mkState [session_dup] (Some (js "d")) [] false None)
          (sample_host rejects sample_jar).

(** A session that records no cookie yet, active on a jar with cookies. *)
Definition session_new : Session :=
  Session.mk (js "n") (js "New") (Some 7%Z) [].

Definition new_session_world : World :=
  mkWorld (mkState [session_a; session_new] (Some (js "n")) [] false None)
          (sample_host accepting sample_jar).

(** * Properties *)

(** A closed decidable fact, by evaluation. *)
Ltac by_evaluation := apply (bool_decide_unpack _); vm_compute; exact I.

Lemma find_None {A} (P : A → Prop) `{∀ x, Decision (P x)} (l : list A) :
  find P l = None ↔ Forall (λ x, ¬ P x) l.
Proof.
  unfold find. destruct (list_find P l) as [p|] eqn:E; simpl.
  - split; [done|]. intros HF. apply (list_find_None P) in HF. congruence.
  - split; [|done]. intros _. by apply (list_find_None P).
Qed.

Lemma find_Some {A} (P : A → Prop) `{∀ x, Decision (P x)} (l : list A) x :
  find P l = Some x → x ∈ l ∧ P x.
Proof.
  unfold find. destruct (list_find P l) as [[i y]|] eqn:E; simpl; [|done].
  intros [= ->]. apply list_find_Some in E as (E & HP & _).
  split; [by eapply list_elem_of_lookup_2|done].
Qed.

Lemma truthy_string_trim_nil s : truthy_string s = false ↔ s = [].
Proof. destruct s; simpl; split; congruence. Qed.

(** ** Name validation *)

(** A name that fails one of the three checks: only the message changes. *)
Lemma createSession_checks_fail (w : World) (name : jstring) :
  ¬ valid_name (state w) name →
  ∃ msg, ValidationError msg
    ∧ dispatch (λ render, createSession render name) w
      = mkWorld (mkState (sessions (state w)) (activeSessionId (state w))
                         (newSessionName (state w)) (loading (state w))
                         (Some msg))
                (host w).
Proof.
  intros Hbad. unfold dispatch, run, createSession, ValidationError.
  destruct (truthy_string (trim name)) eqn:Hempty; simpl.
  2: { eauto. }
  case_bool_decide as Hdup; simpl.
  { eauto. }
  case_bool_decide as Hlong; simpl.
  { eauto 6. }
  exfalso. apply Hbad. split; [|split].
  - intros Hnil. by rewrite Hnil in Hempty.
  - lia.
  - intros (s & Heq & Hs)%list_elem_of_fmap.
    apply Hdup, Exists_exists. eauto.
Qed.

(** C7: [createSession] with a name that is empty after trimming, longer than
    [MAX_SESSION_NAME_LENGTH], or equal after trimming to the name of an
    existing session sets one of the three validation messages and leaves
    the session list (hence every recorded cookie), the active session id
    and the host as they were. *)
Theorem createSession_invalid_name (w : World) (name : jstring) :
  trim name = []
  ∨ MAX_SESSION_NAME_LENGTH < length name
  ∨ trim name ∈ Session.name <$> sessions (state w) →
  let w' := dispatch (λ render, createSession render name) w in
  (∃ msg, error (state w') = Some msg ∧ ValidationError msg)
  ∧ sessions (state w') = sessions (state w)
  ∧ activeSessionId (state w') = activeSessionId (state w)
  ∧ host w' = host w.
Proof.
  intros Hbad w'.
  destruct (createSession_checks_fail w name) as (msg & Hmsg & Hw').
  { intros (Hne & Hlen & Hnew). destruct Hbad as [Hnil | [Hlong | Hdup]];
      [done|lia|done]. }
  subst w'. rewrite Hw'. simpl. split; [eauto|done].
Qed.

Lemma createSession_invalid_name_witness :
  trim (js "  Bob ") ∈ Session.name <$> sessions (state two_sessions_world)
  ∧ let w' := dispatch (λ render, createSession render (js "  Bob "))
                       two_sessions_world in
    (∃ msg, error (state w') = Some msg ∧ ValidationError msg)
    ∧ sessions (state w') = sessions (state two_sessions_world)
    ∧ activeSessionId (state w') = activeSessionId (state two_sessions_world)
    ∧ host w' = host two_sessions_world.
Proof.
  assert (trim (js "  Bob ")
            ∈ Session.name <$> sessions (state two_sessions_world)) as Hdup.
  { by_evaluation. }
  split; [exact Hdup|].
  apply (createSession_invalid_name two_sessions_world (js "  Bob ")).
  right; right. exact Hdup.
Defined.

(** ** Sequencing *)

Lemma bind_returned {A B} (m : Handler A) (k : A → Handler B) w a w' :
  m w = (Returned a, w') → (m ≫= k) w = k a w'.
Proof. unfold mbind, Handler_bind. by intros ->. Qed.

Lemma host_call_host_only {A} c (effect : Host → A * Host) :
  host_only (host_call c effect).
Proof.
  intros w. unfold host_call. destruct (rejects _ c); [done|].
  by destruct (effect _).
Qed.

Lemma for_of_host_only {A} (l : list A) (body : A → Handler unit) :
  (∀ x, host_only (body x)) → host_only (for_of l body).
Proof.
  intros Hbody. induction l as [|x l IH]; intros w; [done|].
  simpl. unfold mbind, Handler_bind.
  specialize (Hbody x w). destruct (body x w) as [[[]|] w1]; simpl in *.
  - rewrite IH. done.
  - done.
Qed.

Lemma try_catch_setError_framing (body : Handler unit) msg :
  host_only body → returns_framing (try_catch body (setError msg)).
Proof.
  intros Hbody w. unfold try_catch. specialize (Hbody w).
  destruct (body w) as [[[]|] w1]; simpl in *.
  - exists w1. by rewrite Hbody.
  - eexists. split; [done|]. simpl. by rewrite Hbody.
Qed.

Lemma try_catch_ignore_framing (body : Handler unit) :
  host_only body → returns_framing (try_catch body (mret ())).
Proof.
  intros Hbody w. unfold try_catch. specialize (Hbody w).
  destruct (body w) as [[[]|] w1]; simpl in *.
  - exists w1. by rewrite Hbody.
  - exists w1. by rewrite Hbody.
Qed.

Lemma mret_framing : returns_framing (mret ()).
Proof. intros w. by exists w. Qed.

(** ** What [deleteSession] leaves behind *)

Lemma deleteSession_found (w : World) (id : jstring) sessionToDelete :
  find (λ session, Session.id session = id) (sessions (state w))
    = Some sessionToDelete →
  let w' := dispatch (λ render, deleteSession render id) w in
  sessions (state w')
    = filter (λ session, Session.id session ≠ id) (sessions (state w))
  ∧ activeSessionId (state w')
    = if bool_decide (activeSessionId (state w) = Some id)
      then if bool_decide (1 < length (sessions (state w)))
           then Session.id <$> sessions (state w) !! 0%nat
           else None
      else activeSessionId (state w).
Proof.
  intros Hfind. unfold dispatch, run, deleteSession. rewrite Hfind.
  set (closeTab := match Session.tabId sessionToDelete with
                   | Some _ => _ | None => _ end).
  assert (returns_framing closeTab) as HcloseTab.
  { subst closeTab. destruct (Session.tabId sessionToDelete) as [tabId|];
      [|apply mret_framing].
    destruct (truthy_number _); [|apply mret_framing].
    apply try_catch_ignore_framing, host_call_host_only. }
  destruct (HcloseTab w) as (w1 & E1 & Hs1 & Ha1).
  rewrite (bind_returned _ _ _ _ _ E1).
  edestruct (try_catch_setError_framing
    (for_of (Session.cookies sessionToDelete) (λ cookie,
       chrome_cookies_remove (cookie_url cookie) (Cookie.name cookie))))
    as (w2 & E2 & Hs2 & Ha2).
  { apply for_of_host_only. intros c. apply host_call_host_only. }
  rewrite (bind_returned _ _ _ _ _ E2).
  unfold mbind, Handler_bind. simpl.
  case_bool_decide; simpl; rewrite Hs2, Hs1; [done|].
  by rewrite Ha2, Ha1.
Qed.

Lemma deleteSession_not_found (w : World) (id : jstring) :
  id ∉ Session.id <$> sessions (state w) →
  dispatch (λ render, deleteSession render id) w = w.
Proof.
  intros Hid. unfold dispatch, run, deleteSession.
  replace (find _ _) with (@None Session); [done|].
  symmetry. apply find_None, Forall_forall. intros s Hs Heq.
  apply Hid, list_elem_of_fmap. eauto.
Qed.

(** ** What [createSession] leaves behind, for a name that passes the
    three checks *)

Lemma createSession_checks_pass (render : State) (name : jstring) :
  valid_name render name →
  createSession render name =
    (id ← uuidv4;
     let newSession := Session.mk id (trim name) None [] in
     setSessions (λ prevSessions, prevSessions ++ [newSession]);;
     setActiveSessionId (Some (Session.id newSession));;
     try_catch
       (tab ← chrome_tabs_create;
        setSessions (λ prevSessions,
          (λ session,
             if bool_decide (Session.id session = Session.id newSession)
             then Session.with_tabId session (Tab.id tab)
             else session) <$> prevSessions))
       (setError (Some "Failed to create new tab.");;
        setSessions (λ prevSessions,
          filter (λ s, Session.id s ≠ Session.id newSession) prevSessions);;
        setActiveSessionId None);;
     setNewSessionName [];;
     setError None).
Proof.
  intros (Hne & Hlen & Hnew). unfold createSession.
  destruct (truthy_string (trim name)) eqn:E; simpl.
  2: { by apply truthy_string_trim_nil in E. }
  rewrite bool_decide_eq_false_2.
  2: { intros (s & Hs & Heq)%Exists_exists. apply Hnew, list_elem_of_fmap. eauto. }
  rewrite bool_decide_eq_false_2; [done|lia].
Qed.

Lemma createSession_tab_created (w : World) (name : jstring) :
  valid_name (state w) name →
  rejects (host w) tabs_create = false →
  let id := new_uuid (host w) in
  state (dispatch (λ render, createSession render name) w)
    = mkState
        ((λ session, if bool_decide (Session.id session = id)
                     then Session.with_tabId session (Tab.id (new_tab (host w)))
                     else session)
           <$> (sessions (state w) ++ [Session.mk id (trim name) None []]))
        (Some id) [] (loading (state w)) None.
Proof.
  intros Hvalid Haccept. unfold dispatch, run.
  rewrite createSession_checks_pass by done.
  unfold mbind, Handler_bind, try_catch, chrome_tabs_create, host_call.
  simpl. rewrite Haccept. done.
Qed.

Lemma createSession_tab_failed (w : World) (name : jstring) :
  valid_name (state w) name →
  rejects (host w) tabs_create = true →
  let id := new_uuid (host w) in
  state (dispatch (λ render, createSession render name) w)
    = mkState
        (filter (λ s, Session.id s ≠ id)
                (sessions (state w) ++ [Session.mk id (trim name) None []]))
        None [] (loading (state w)) None.
Proof.
  intros Hvalid Hreject. unfold dispatch, run.
  rewrite createSession_checks_pass by done.
  unfold mbind, Handler_bind, try_catch, chrome_tabs_create, host_call.
  simpl. rewrite Hreject. done.
Qed.

Lemma filter_fresh_id (l : list Session) (id : jstring) :
  id ∉ Session.id <$> l →
  filter (λ s, Session.id s ≠ id) l = l.
Proof.
  induction l as [|s l IH]; [done|]. rewrite fmap_cons, not_elem_of_cons.
  intros [Hs Hl]. rewrite filter_cons_True by done. by rewrite IH.
Qed.

(** ** Deleting a session *)

(** C9: [deleteSession] with an id that no session of the list has changes
    nothing: the session list, the active session id and the record of host
    calls are as before (no tab is closed and no cookie removed). *)
Theorem deleteSession_unknown_id (w : World) (id : jstring) :
  id ∉ Session.id <$> sessions (state w) →
  let w' := dispatch (λ render, deleteSession render id) w in
  sessions (state w') = sessions (state w)
  ∧ activeSessionId (state w') = activeSessionId (state w)
  ∧ calls (host w') = calls (host w)
  ∧ w' = w.
Proof.
  intros Hid w'. subst w'. by rewrite deleteSession_not_found.
Qed.

Lemma deleteSession_unknown_id_witness :
  (js "ghost" ∉ Session.id <$> sessions (state two_sessions_world))
  ∧ let w' := dispatch (λ render, deleteSession render (js "ghost"))
                       two_sessions_world in
    sessions (state w') = sessions (state two_sessions_world)
    ∧ activeSessionId (state w') = activeSessionId (state two_sessions_world)
    ∧ calls (host w') = calls (host two_sessions_world)
    ∧ w' = two_sessions_world.
Proof.
  assert (js "ghost" ∉ Session.id <$> sessions (state two_sessions_world))
    as Hid.
  { by_evaluation. }
  split; [exact Hid|].
  apply (deleteSession_unknown_id two_sessions_world (js "ghost")), Hid.
Defined.

(** The session the callback finds is the first one with the id. *)
Lemma find_head (first : Session) (rest : list Session) :
  find (λ session, Session.id session = Session.id first) (first :: rest)
    = Some first.
Proof.
  unfold find. simpl. rewrite decide_True by done. done.
Qed.

Lemma filter_id_not_elem (l : list Session) (id : jstring) :
  id ∉ Session.id <$> filter (λ session, Session.id session ≠ id) l.
Proof.
  intros (s & Heq & Hs)%list_elem_of_fmap.
  apply list_elem_of_filter in Hs as [Hne _]. done.
Qed.

(** C2: when the deleted session is the active one, is first in the list and
    other sessions remain, [deleteSession] reads the replacement from the
    list as it was before the removal: the active session id stays the id of
    the deleted session, which the list no longer holds. *)
Theorem deleteSession_first_active_session
    (w : World) (first : Session) (rest : list Session) :
  sessions (state w) = first :: rest →
  rest ≠ [] →
  activeSessionId (state w) = Some (Session.id first) →
  let w' := dispatch (λ render, deleteSession render (Session.id first)) w in
  sessions (state w')
    = filter (λ session, Session.id session ≠ Session.id first) rest
  ∧ activeSessionId (state w') = Some (Session.id first)
  ∧ Session.id first ∉ Session.id <$> sessions (state w').
Proof.
  intros Hlist Hrest Hactive w'.
  destruct (deleteSession_found w (Session.id first) first) as [Hs Ha].
  { rewrite Hlist. apply find_head. }
  fold w' in Hs, Ha. rewrite Hlist in Hs, Ha.
  rewrite filter_cons_False in Hs by (intros Hne; by apply Hne).
  rewrite Hactive, bool_decide_eq_true_2 in Ha by done.
  rewrite bool_decide_eq_true_2 in Ha
    by (destruct rest; [done|simpl; lia]).
  split; [done|]. split; [done|].
  rewrite Hs. apply filter_id_not_elem.
Qed.

Lemma deleteSession_first_active_session_witness :
  let w' := dispatch (λ render, deleteSession render (js "a"))
                     two_sessions_world in
  sessions (state w') = [session_b]
  ∧ activeSessionId (state w') = Some (js "a")
  ∧ js "a" ∉ Session.id <$> sessions (state w').
Proof.
  apply (deleteSession_first_active_session
           two_sessions_world session_a [session_b]); done.
Defined.

(** Where the deleted active session is not the first of the list, the first
    session of the list, which remains, becomes active. *)
Lemma deleteSession_active_not_first
    (w : World) (id : jstring) (first : Session) (rest : list Session) :
  sessions (state w) = first :: rest →
  Session.id first ≠ id →
  id ∈ Session.id <$> rest →
  activeSessionId (state w) = Some id →
  let w' := dispatch (λ render, deleteSession render id) w in
  sessions (state w')
    = first :: filter (λ session, Session.id session ≠ id) rest
  ∧ activeSessionId (state w') = Some (Session.id first).
Proof.
  intros Hlist Hfirst Hin Hactive w'.
  destruct (find (λ session, Session.id session = id) (sessions (state w)))
    as [found|] eqn:Hfind.
  2: { apply find_None in Hfind. rewrite Hlist, Forall_cons in Hfind.
       destruct Hfind as [_ Hrest]. rewrite Forall_forall in Hrest.
       apply list_elem_of_fmap in Hin as (s & -> & Hs).
       by destruct (Hrest s Hs). }
  destruct (deleteSession_found w id found Hfind) as [Hs Ha].
  fold w' in Hs, Ha. rewrite Hlist in Hs, Ha.
  rewrite filter_cons_True in Hs by done.
  rewrite Hactive, bool_decide_eq_true_2 in Ha by done.
  rewrite bool_decide_eq_true_2 in Ha.
  2: { destruct rest; [by apply not_elem_of_nil in Hin|simpl; lia]. }
  done.
Qed.

(** Deleting the only session, when it is active, clears the selection. *)
Lemma deleteSession_only_session (w : World) (only : Session) :
  sessions (state w) = [only] →
  activeSessionId (state w) = Some (Session.id only) →
  let w' := dispatch (λ render, deleteSession render (Session.id only)) w in
  sessions (state w') = [] ∧ activeSessionId (state w') = None.
Proof.
  intros Hlist Hactive w'.
  destruct (deleteSession_found w (Session.id only) only) as [Hs Ha].
  { rewrite Hlist. apply find_head. }
  fold w' in Hs, Ha. rewrite Hlist in Hs, Ha.
  rewrite filter_cons_False in Hs by (intros Hne; by apply Hne).
  rewrite Hactive, bool_decide_eq_true_2 in Ha by done.
  rewrite bool_decide_eq_false_2 in Ha by (simpl; lia).
  done.
Qed.

(** ** Creating a session *)

(** C3: for a name that passes the checks, when the host rejects the tab
    creation and the generated id is new, [createSession] ends with the
    session list as it was before the call and no active session; the
    message set in the [catch] block is cleared again by the [setError(null)]
    that ends the callback, so no error is left to show. *)
Theorem createSession_tab_failure (w : World) (name : jstring) :
  valid_name (state w) name →
  rejects (host w) tabs_create = true →
  new_uuid (host w) ∉ Session.id <$> sessions (state w) →
  let w' := dispatch (λ render, createSession render name) w in
  sessions (state w') = sessions (state w)
  ∧ activeSessionId (state w') = None
  ∧ error (state w') = None.
Proof.
  intros Hvalid Hreject Hfresh w'. subst w'.
  rewrite createSession_tab_failed by done. simpl.
  rewrite filter_app, filter_fresh_id by done.
  rewrite filter_cons_False by (intros Hne; by apply Hne).
  rewrite filter_nil, app_nil_r. done.
Qed.

Lemma sample_name_valid (rejects : HostCall → bool) :
  valid_name (state (empty_world rejects)) (js "Alice").
Proof.
  split; [done|]. split; [vm_compute; lia|]. apply not_elem_of_nil.
Qed.

Lemma createSession_tab_failure_witness :
  let w' := dispatch (λ render, createSession render (js "Alice"))
                     (empty_world no_new_tab) in
  sessions (state w') = []
  ∧ activeSessionId (state w') = None
  ∧ error (state w') = None.
Proof.
  apply (createSession_tab_failure (empty_world no_new_tab) (js "Alice")).
  - apply sample_name_valid.
  - reflexivity.
  - apply not_elem_of_nil.
Defined.

(** C6, as stated, fails when the host rejects the tab creation: the name is
    valid, yet the list does not grow and no session is active. *)
Lemma createSession_valid_name_counterexample :
  let w := empty_world no_new_tab in
  let w' := dispatch (λ render, createSession render (js "Alice")) w in
  valid_name (state w) (js "Alice")
  ∧ length (sessions (state w')) ≠ S (length (sessions (state w)))
  ∧ activeSessionId (state w') = None.
Proof.
  split; [apply sample_name_valid|]. by vm_compute.
Qed.

(** C6, amended: for a name that is non-empty after trimming, of at most
    [MAX_SESSION_NAME_LENGTH] code units and different after trimming from
    every existing name, when the host creates the tab, [createSession]
    makes the list one longer; the session at its end carries the trimmed
    name, an empty cookie list and the new tab's id, and it is the active
    session. *)
Theorem createSession_valid_name (w : World) (name : jstring) :
  trim name ≠ [] →
  length name ≤ MAX_SESSION_NAME_LENGTH →
  trim name ∉ Session.name <$> sessions (state w) →
  rejects (host w) tabs_create = false →
  let w' := dispatch (λ render, createSession render name) w in
  length (sessions (state w')) = S (length (sessions (state w)))
  ∧ ∃ newSession,
      last (sessions (state w')) = Some newSession
      ∧ Session.name newSession = trim name
      ∧ Session.cookies newSession = []
      ∧ Session.tabId newSession = Tab.id (new_tab (host w))
      ∧ activeSessionId (state w') = Some (Session.id newSession).
Proof.
  intros Hne Hlen Hnew Haccept w'. subst w'.
  rewrite createSession_tab_created by done. simpl.
  rewrite length_fmap, length_app. simpl. split; [lia|].
  rewrite fmap_app. simpl. rewrite bool_decide_eq_true_2 by done.
  eexists. rewrite last_snoc. done.
Qed.

Lemma createSession_valid_name_witness :
  let w' := dispatch (λ render, createSession render (js "Alice"))
                     (empty_world accepting) in
  length (sessions (state w')) = 1
  ∧ ∃ newSession,
      last (sessions (state w')) = Some newSession
      ∧ Session.name newSession = trim (js "Alice")
      ∧ Session.cookies newSession = []
      ∧ Session.tabId newSession = Some 8%Z
      ∧ activeSessionId (state w') = Some (Session.id newSession).
Proof.
  apply (createSession_valid_name (empty_world accepting) (js "Alice")).
  - done.
  - vm_compute. lia.
  - apply not_elem_of_nil.
  - reflexivity.
Defined.

(** ** Cookie-change notifications *)

Lemma findIndex_first {A} (P : A → Prop) `{∀ x, Decision (P x)}
    (before : list A) (x : A) (after : list A) :
  P x → (∀ y, y ∈ before → ¬ P y) →
  findIndex P (before ++ x :: after) = Z.of_nat (length before).
Proof.
  intros Hx Hbefore. unfold findIndex.
  rewrite (proj2 (list_find_Some P (before ++ x :: after) (length before) x));
    [done|].
  split; [by rewrite list_lookup_middle|]. split; [done|].
  intros j y Hj Hlt. rewrite lookup_app_l in Hj by done.
  apply Hbefore. by eapply list_elem_of_lookup_2.
Qed.

Lemma findIndex_absent {A} (P : A → Prop) `{∀ x, Decision (P x)} (l : list A) :
  (∀ y, y ∈ l → ¬ P y) → findIndex P l = (-1)%Z.
Proof.
  intros Hl. unfold findIndex.
  rewrite (proj2 (list_find_None P l)); [done|]. by apply Forall_forall.
Qed.



(** With no active session a notification changes nothing. *)
Lemma handleCookieChanged_inactive (w : World) (changeInfo : OnChangedInfo) :
  truthy_id (activeSessionId (state w)) = false →
  sessions (state (dispatch (λ render, handleCookieChanged render changeInfo) w))
    = sessions (state w).
Proof.
  intros Hactive. unfold dispatch, run, handleCookieChanged.
  rewrite Hactive.
  destruct (OnChangedInfo.removed changeInfo); simpl; apply list_fmap_id.
Qed.



(** C1: two sessions record a cookie named x and the first one is active; a
    removal notification for x takes the cookie out of the second session's
    list too, and a set notification for a new cookie adds it to both. *)
Theorem handleCookieChanged_changes_every_session :
  let removal := OnChangedInfo.mk true (sample_cookie "x" "1" "/") in
  let addition := OnChangedInfo.mk false (sample_cookie "z" "3" "/") in
  let removed := dispatch (λ render, handleCookieChanged render removal)
                          two_sessions_world in
  let added := dispatch (λ render, handleCookieChanged render addition)
                        two_sessions_world in
  activeSessionId (state two_sessions_world) = Some (Session.id session_a)
  ∧ sessions (state removed)
    = [ Session.with_cookies session_a [];
        Session.with_cookies session_b [sample_cookie "y" "2" "/"] ]
  ∧ sessions (state added)
    = [ Session.with_cookies session_a
          [sample_cookie "x" "1" "/"; sample_cookie "z" "3" "/"];
        Session.with_cookies session_b
          [sample_cookie "x" "1" "/"; sample_cookie "y" "2" "/";
           sample_cookie "z" "3" "/"] ].
Proof. by vm_compute. Qed.

(** ** The startup load and the save effect *)

Lemma loadSessions_rejected (w : World) :
  rejects (host w) storage_get = true →
  state (run loadSessions w)
    = mkState (sessions (state w)) (activeSessionId (state w))
              (newSessionName (state w)) false
              (Some "Failed to load sessions. Please check console.").
Proof.
  intros Hreject. unfold run, loadSessions.
  unfold mbind, Handler_bind, try_catch, chrome_storage_local_get, host_call.
  simpl. rewrite Hreject. done.
Qed.

Lemma loadSessions_accepted (w : World) :
  rejects (host w) storage_get = false →
  let result_sessions := default (VArray []) (storage (host w)) in
  let validatedSessions :=
    value_to_session
      <$> filter (λ s, valid_shape s) (as_elements result_sessions) in
  state (run loadSessions w)
    = if truthy result_sessions && isArray result_sessions then
        mkState validatedSessions
                (if bool_decide (0 < length validatedSessions)
                 then Session.id <$> validatedSessions !! 0%nat
                 else activeSessionId (state w))
                (newSessionName (state w)) false (error (state w))
      else
        mkState (sessions (state w)) (activeSessionId (state w))
                (newSessionName (state w)) false (error (state w)).
Proof.
  intros Haccept. unfold run, loadSessions.
  unfold mbind, Handler_bind, try_catch, chrome_storage_local_get, host_call.
  simpl. rewrite Haccept. simpl.
  destruct (truthy _ && isArray _); [|done]. simpl.
  case_bool_decide; done.
Qed.

Lemma saveSessions_accepted (w : World) :
  loading (state w) = false →
  rejects (host w) (storage_set (VArray (session_to_value <$> sessions (state w))))
    = false →
  storage (host (dispatch saveSessions w))
    = Some (VArray (session_to_value <$> sessions (state w)))
  ∧ rejects (host (dispatch saveSessions w)) = rejects (host w).
Proof.
  intros Hloaded Haccept. unfold dispatch, run, saveSessions.
  rewrite Hloaded. simpl.
  unfold try_catch, chrome_storage_local_set, host_call. simpl.
  rewrite Haccept. done.
Qed.

(** The guard [s &&] of the load drops nothing more: a value that is not an
    object has no string id. *)
Lemma valid_shape_well_shaped (s : Value) :
  valid_shape s = true ↔ well_shaped s.
Proof.
  unfold valid_shape, well_shaped. rewrite !andb_true_iff.
  split; [tauto|]. intros (Hid & Hname & Hcookies).
  repeat split; try done. by destruct s.
Qed.

Lemma filter_valid_shape (entries : list Value) :
  filter (λ s, valid_shape s) entries = filter well_shaped entries.
Proof.
  apply list_filter_iff. intros s. rewrite <- valid_shape_well_shaped.
  by destruct (valid_shape s).
Qed.

Lemma as_sameSite_to_string (s : SameSiteStatus) :
  as_sameSite (VString (sameSite_to_string s)) = s.
Proof. by destruct s. Qed.

Lemma value_to_cookie_to_value (c : Cookie) :
  value_to_cookie (cookie_to_value c) = c.
Proof.
  destruct c as [n v d p s h ss [e|]]; unfold value_to_cookie; simpl;
    by rewrite as_sameSite_to_string.
Qed.

Lemma value_to_session_to_value (s : Session) :
  value_to_session (session_to_value s) = s.
Proof.
  destruct s as [i n [t|] cs]; unfold value_to_session; simpl;
    rewrite <- list_fmap_compose;
    rewrite (list_fmap_ext _ id) by (intros; apply value_to_cookie_to_value);
    by rewrite list_fmap_id.
Qed.

Lemma session_to_value_well_shaped (s : Session) :
  well_shaped (session_to_value s).
Proof. by destruct s as [i n [t|] cs]. Qed.

Lemma filter_well_shaped_sessions (l : list Session) :
  filter well_shaped (session_to_value <$> l) = session_to_value <$> l.
Proof.
  induction l as [|s l IH]; [done|]. rewrite fmap_cons.
  rewrite filter_cons_True by apply session_to_value_well_shaped.
  by rewrite IH.
Qed.

Lemma load_stored_entries (h : Host) (entries : list Value) :
  storage h = Some (VArray entries) →
  rejects h storage_get = false →
  let w' := run loadSessions (mkWorld initial_state h) in
  sessions (state w') = value_to_session <$> filter well_shaped entries
  ∧ activeSessionId (state w') = Session.id <$> head (sessions (state w')).
Proof.
  intros Hstored Haccept w'. subst w'.
  rewrite loadSessions_accepted by done. simpl. rewrite Hstored. simpl.
  rewrite filter_valid_shape. split; [done|].
  destruct (value_to_session <$> filter well_shaped entries); done.
Qed.

(** C8: when the host accepts the storage calls, the startup load turns the
    stored list into the list of its entries whose id is a string, whose
    name is a string and whose cookies field is an array, in their order,
    and makes the first of them, if any, the active session; so after the
    save effect has stored the session list of the state, the startup load
    of a new popup yields that very list, with its first session active. *)
Theorem save_load_round_trip (w : World) (entries : list Value) :
  rejects (host w) storage_get = false →
  (storage (host w) = Some (VArray entries) →
   let w' := run loadSessions (mkWorld initial_state (host w)) in
   sessions (state w') = value_to_session <$> filter well_shaped entries
   ∧ activeSessionId (state w') = Session.id <$> head (sessions (state w')))
  ∧ (loading (state w) = false →
     rejects (host w)
       (storage_set (VArray (session_to_value <$> sessions (state w)))) = false →
     let saved := dispatch saveSessions w in
     let w' := run loadSessions (mkWorld initial_state (host saved)) in
     storage (host saved)
       = Some (VArray (session_to_value <$> sessions (state w)))
     ∧ sessions (state w') = sessions (state w)
     ∧ activeSessionId (state w') = Session.id <$> head (sessions (state w))).
Proof.
  intros Hget. split.
  - intros Hstored. by apply load_stored_entries.
  - intros Hloaded Hset saved w'.
    destruct (saveSessions_accepted w Hloaded Hset) as [Hstored Hrejects].
    fold saved in Hstored, Hrejects. split; [done|].
    destruct (load_stored_entries (host saved) _ Hstored) as [Hs Ha].
    { by rewrite Hrejects. }
    fold w' in Hs, Ha.
    rewrite filter_well_shaped_sessions, <- list_fmap_compose in Hs.
    rewrite (list_fmap_ext _ id) in Hs
      by (intros; apply value_to_session_to_value).
    rewrite list_fmap_id in Hs. by rewrite Ha, Hs.
Qed.

Lemma save_load_round_trip_witness :
  (let w' := run loadSessions (mkWorld initial_state (host stored_world)) in
   sessions (state w') = [session_a; session_b]
   ∧ activeSessionId (state w') = Some (js "a"))
  ∧ (let saved := dispatch saveSessions stored_world in
     let w' := run loadSessions (mkWorld initial_state (host saved)) in
     storage (host saved)
       = Some (VArray [session_to_value session_a; session_to_value session_b])
     ∧ sessions (state w') = [session_a; session_b]
     ∧ activeSessionId (state w') = Some (js "a")).
Proof.
  destruct (save_load_round_trip stored_world sample_entries eq_refl)
    as [Hload Hsave].
  split.
  - destruct (Hload eq_refl) as [Hs Ha]. split; [exact Hs|].
    rewrite Ha, Hs. reflexivity.
  - exact (Hsave eq_refl eq_refl).
Defined.

(** ** The active session id refers to a session of the list *)

Lemma active_exists_None (st : State) :
  activeSessionId st = None → active_exists st.
Proof. intros Hnone id. by rewrite Hnone. Qed.

Lemma loadSessions_active_exists (w : World) :
  activeSessionId (state w) = None → active_exists (state (run loadSessions w)).
Proof.
  intros Hnone. destruct (rejects (host w) storage_get) eqn:Hget.
  - rewrite loadSessions_rejected by done. by apply active_exists_None.
  - rewrite loadSessions_accepted by done. simpl.
    destruct (truthy _ && isArray _); [|by apply active_exists_None].
    case_bool_decide; [|by apply active_exists_None].
    intros id. simpl. intros Hid.
    apply fmap_Some in Hid as (s & Hs & ->).
    apply list_elem_of_fmap. exists s. split; [done|].
    by eapply list_elem_of_lookup_2.
Qed.

Lemma createSession_active_exists (w : World) (name : jstring) :
  active_exists (state w) →
  active_exists (state (dispatch (λ render, createSession render name) w)).
Proof.
  intros Hinv. destruct (decide (valid_name (state w) name)) as [Hvalid|Hbad].
  - destruct (rejects (host w) tabs_create) eqn:Htab.
    + rewrite createSession_tab_failed by done. by apply active_exists_None.
    + rewrite createSession_tab_created by done.
      intros id. simpl. intros [= <-].
      rewrite <- list_fmap_compose, fmap_app, elem_of_app. right.
      simpl. rewrite bool_decide_eq_true_2 by done. simpl. apply list_elem_of_here.
  - destruct (createSession_checks_fail w name Hbad) as (msg & _ & ->).
    exact Hinv.
Qed.

Lemma switchSession_active_exists (w : World) (id : jstring) :
  id ∈ Session.id <$> sessions (state w) →
  active_exists (state (run (switchSession id) w)).
Proof. intros Hid id'. simpl. by intros [= <-]. Qed.

Lemma deleteSession_active_exists (w : World) (id : jstring) :
  active_exists (state w) →
  (activeSessionId (state w) = Some id →
   1 < length (sessions (state w)) →
   Session.id <$> sessions (state w) !! 0%nat ≠ Some id) →
  active_exists (state (dispatch (λ render, deleteSession render id) w)).
Proof.
  intros Hinv Hfirst.
  destruct (find (λ session, Session.id session = id) (sessions (state w)))
    as [found|] eqn:Hfind.
  2: { rewrite deleteSession_not_found; [done|].
       apply find_None in Hfind. rewrite Forall_forall in Hfind.
       intros (s & -> & Hs)%list_elem_of_fmap. by apply (Hfind s). }
  destruct (deleteSession_found w id found Hfind) as [Hs Ha].
  intros id'. rewrite Ha, Hs. clear Ha Hs.
  assert (∀ s, s ∈ sessions (state w) → Session.id s ≠ id →
            Session.id s ∈ Session.id
              <$> filter (λ session, Session.id session ≠ id)
                         (sessions (state w))) as Hkept.
  { intros s Hs Hne. apply list_elem_of_fmap. exists s. split; [done|].
    by apply list_elem_of_filter. }
  case_bool_decide as Hactive.
  - case_bool_decide as Hlen; [|done].
    intros Hid'. apply fmap_Some in Hid' as (s & Hs & ->).
    apply Hkept; [by eapply list_elem_of_lookup_2|].
    intros Heq. apply (Hfirst Hactive Hlen). by rewrite Hs, <- Heq.
  - intros Hid'. specialize (Hinv id' Hid').
    apply list_elem_of_fmap in Hinv as (s & -> & Hs).
    apply Hkept; [done|]. intros Heq. apply Hactive. by rewrite Hid', Heq.
Qed.

(** C5, as stated, fails for [switchSession]: it makes any id the active one,
    also the id of no session. *)
Lemma switchSession_unknown_id_counterexample :
  active_exists (state two_sessions_world)
  ∧ ¬ active_exists (state (run (switchSession (js "ghost")) two_sessions_world)).
Proof.
  split.
  - intros id. simpl. intros [= <-].
    by_evaluation.
  - intros Hinv. specialize (Hinv (js "ghost") eq_refl).
    revert Hinv. by_evaluation.
Qed.

(** C5, amended: the startup load, run with no active session, ends in a
    state whose active session id, if set, is the id of a session of the
    list; from a state with that property, [createSession] keeps it,
    [switchSession] keeps it when given the id of a session of the list, and
    [deleteSession] keeps it unless the deleted session is the active one,
    has the id of the first session of the list and is not the only
    session. *)
Theorem active_exists_preserved (w : World) (name id : jstring) :
  active_exists (state w) →
  (activeSessionId (state w) = None →
   active_exists (state (run loadSessions w)))
  ∧ active_exists (state (dispatch (λ render, createSession render name) w))
  ∧ (id ∈ Session.id <$> sessions (state w) →
     active_exists (state (run (switchSession id) w)))
  ∧ ((activeSessionId (state w) = Some id →
      1 < length (sessions (state w)) →
      Session.id <$> sessions (state w) !! 0%nat ≠ Some id) →
     active_exists (state (dispatch (λ render, deleteSession render id) w))).
Proof.
  intros Hinv. split; [|split; [|split]].
  - apply loadSessions_active_exists.
  - by apply createSession_active_exists.
  - apply switchSession_active_exists.
  - by apply deleteSession_active_exists.
Qed.

Lemma active_exists_preserved_witness :
  active_exists
    (state (run loadSessions (mkWorld initial_state (host stored_world))))
  ∧ active_exists
      (state (dispatch (λ render, createSession render (js "Carol"))
                       two_sessions_world))
  ∧ active_exists (state (run (switchSession (js "b")) two_sessions_world))
  ∧ active_exists
      (state (dispatch (λ render, deleteSession render (js "b"))
                       two_sessions_world)).
Proof.
  assert (active_exists (state two_sessions_world)) as Htwo.
  { intros id. simpl. intros [= <-].
    by_evaluation. }
  destruct (active_exists_preserved
              (mkWorld initial_state (host stored_world)) [] [])
    as (Hload & _); [by apply active_exists_None|].
  destruct (active_exists_preserved two_sessions_world (js "Carol") (js "b")
              Htwo) as (_ & Hcreate & Hswitch & Hdelete).
  split; [by apply Hload|]. split; [exact Hcreate|]. split.
  - apply Hswitch. by_evaluation.
  - apply Hdelete. intros Hactive. discriminate Hactive.
Defined.

(** ** The reconciliation pass *)

Lemma remove_unknown_accepts url names h cookie :
  accepts_all h → accepts_all (remove_unknown url names h cookie).
Proof. unfold remove_unknown. by case_bool_decide. Qed.

Lemma impose_accepts url h cookie :
  accepts_all h → accepts_all (impose url h cookie).
Proof. done. Qed.

Lemma removal_loop (url : jstring) (names : list jstring)
    (l : list Cookie) (w : World) :
  accepts_all (host w) →
  for_of l (λ cookie,
            if negb (bool_decide (Cookie.name cookie ∈ names))
            then chrome_cookies_remove url (Cookie.name cookie)
            else mret ()) w
    = (Returned (), mkWorld (state w) (foldl (remove_unknown url names) (host w) l)).
Proof.
  induction l as [|cookie l IH] in w |- *; intros Haccept.
  { by destruct w. }
  simpl. unfold mbind, Handler_bind.
  assert ((if negb (bool_decide (Cookie.name cookie ∈ names))
           then chrome_cookies_remove url (Cookie.name cookie)
           else mret ()) w
          = (Returned (), mkWorld (state w)
                            (remove_unknown url names (host w) cookie))) as ->.
  { unfold remove_unknown. case_bool_decide; simpl.
    - by destruct w.
    - unfold chrome_cookies_remove, host_call. simpl. by rewrite Haccept. }
  rewrite IH; [done|]. simpl. by apply remove_unknown_accepts.
Qed.

Lemma set_loop (url : jstring) (l : list Cookie) (w : World) :
  accepts_all (host w) →
  for_of l (λ cookie, chrome_cookies_set (cookieDetails url cookie)) w
    = (Returned (), mkWorld (state w) (foldl (impose url) (host w) l)).
Proof.
  induction l as [|cookie l IH] in w |- *; intros Haccept.
  { by destruct w. }
  simpl. unfold mbind, Handler_bind.
  assert (chrome_cookies_set (cookieDetails url cookie) w
          = (Returned (), mkWorld (state w) (impose url (host w) cookie))) as ->.
  { unfold chrome_cookies_set, host_call. simpl. by rewrite Haccept. }
  rewrite IH; done.
Qed.

Lemma removals_accept url names l h :
  accepts_all h → accepts_all (foldl (remove_unknown url names) h l).
Proof.
  induction l as [|c l IH] in h |- *; [done|]. simpl. intros Haccept.
  by apply IH, remove_unknown_accepts.
Qed.

(** *** The jar and the calls after the removal loop *)

Lemma removals_visible url names l h :
  visible (foldl (remove_unknown url names) h l) = visible h.
Proof.
  induction l as [|c l IH] in h |- *; [done|]. simpl. rewrite IH.
  unfold remove_unknown. by case_bool_decide.
Qed.

Lemma removals_calls url names l h :
  calls (foldl (remove_unknown url names) h l)
    = calls h ++ ((λ c, cookies_remove url (Cookie.name c))
                    <$> filter (λ c, Cookie.name c ∉ names) l).
Proof.
  induction l as [|c l IH] in h |- *; simpl.
  { by rewrite app_nil_r. }
  rewrite IH. unfold remove_unknown. case_bool_decide.
  - by rewrite filter_cons_False by (intros Hne; by apply Hne).
  - rewrite filter_cons_True by done. simpl. by rewrite <- app_assoc.
Qed.

Lemma filter_iff_elem {A} (P1 P2 : A → Prop)
    `{!∀ x, Decision (P1 x), !∀ x, Decision (P2 x)} (l : list A) :
  (∀ x, x ∈ l → P1 x ↔ P2 x) → filter P1 l = filter P2 l.
Proof.
  induction l as [|a l IH]; [done|]. intros Hiff.
  assert (filter P1 l = filter P2 l) as Hl.
  { apply IH. intros x Hx. apply Hiff. by right. }
  destruct (decide (P1 a)) as [Ha|Ha].
  - rewrite !filter_cons_True; [by rewrite Hl|..]; [|done].
    apply Hiff; [by left|done].
  - rewrite !filter_cons_False; [done|..]; [|done].
    intros Ha2. apply Ha, Hiff; [by left|done].
Qed.

Lemma removals_jar_Forall url names l h :
  jar (foldl (remove_unknown url names) h l)
    = filter (λ x, Forall (λ c, Cookie.name c ∈ names
                                ∨ ¬ (visible h url x
                                     ∧ Cookie.name x = Cookie.name c)) l)
             (jar h).
Proof.
  induction l as [|c l IH] in h |- *; simpl.
  { induction (jar h) as [|x j IHj]; [done|].
    rewrite filter_cons_True by done. by rewrite <- IHj. }
  rewrite IH. unfold remove_unknown. case_bool_decide as Hknown; simpl.
  - apply list_filter_iff. intros x. rewrite Forall_cons. tauto.
  - unfold jar_remove. rewrite list_filter_filter.
    apply list_filter_iff. intros x. rewrite Forall_cons. tauto.
Qed.

(** After the removal loop over the fetched cookies the jar holds the
    cookies it held, but for those in the scope of the URL whose name the
    session does not record. *)
Lemma removals_jar url names h :
  jar (foldl (remove_unknown url names) h
             (jar_getAll (visible h) url (jar h)))
    = filter (λ x, ¬ (visible h url x ∧ Cookie.name x ∉ names)) (jar h).
Proof.
  rewrite removals_jar_Forall. apply filter_iff_elem. intros x Hx.
  rewrite Forall_forall. split.
  - intros Hall [Hvisible Hunknown].
    destruct (Hall x) as [Hknown|Hnot]; [|done|].
    + apply list_elem_of_filter. done.
    + by apply Hnot.
  - intros Hkeep c Hc.
    destruct (decide (Cookie.name c ∈ names)) as [Hknown|Hunknown];
      [by left|right].
    intros [Hvisible Hname]. apply Hkeep. split; [done|]. by rewrite Hname.
Qed.

(** *** The jar and the calls after the set loop *)

Lemma sets_calls url l h :
  calls (foldl (impose url) h l)
    = calls h ++ ((λ c, cookies_set (cookieDetails url c)) <$> l).
Proof.
  induction l as [|c l IH] in h |- *; simpl.
  { by rewrite app_nil_r. }
  rewrite IH. simpl. by rewrite <- app_assoc.
Qed.

Lemma sets_jar url l h :
  jar (foldl (impose url) h l)
    = foldl (λ j c, jar_set (cookieDetails url c) j) (jar h) l.
Proof.
  induction l as [|c l IH] in h |- *; [done|]. simpl. by rewrite IH.
Qed.

Lemma imposed_key url c : cookie_key (imposed url c) = cookie_key c.
Proof. done. Qed.

Lemma imposed_name url c : Cookie.name (imposed url c) = Cookie.name c.
Proof. done. Qed.

(** The set call carries every attribute but an expiry of zero. *)
Lemma imposed_same url c :
  Cookie.expirationDate c ≠ Some 0%Z → imposed url c = c.
Proof.
  destruct c as [n v d p s h ss [e|]]; [|done]. simpl. intros Hne.
  unfold imposed, cookieDetails, details_cookie. simpl.
  destruct (Z.eqb_spec e 0) as [->|_]; done.
Qed.

Lemma jar_set_elem d j x :
  x ∈ jar_set d j
  ↔ (x ∈ j ∧ cookie_key x ≠ cookie_key (details_cookie d))
    ∨ x = details_cookie d.
Proof.
  unfold jar_set. rewrite elem_of_app, list_elem_of_filter, list_elem_of_singleton.
  tauto.
Qed.

Lemma sets_keep url l j x :
  x ∈ j → (∀ c, c ∈ l → cookie_key c ≠ cookie_key x) →
  x ∈ foldl (λ j c, jar_set (cookieDetails url c) j) j l.
Proof.
  induction l as [|c l IH] in j |- *; [done|]. simpl. intros Hx Hkeys.
  apply IH.
  - apply jar_set_elem. left. split; [done|].
    intros Heq. apply (Hkeys c); [by left|]. by rewrite Heq.
  - intros c' Hc'. apply Hkeys. by right.
Qed.

Lemma sets_last url before c after j :
  cookie_key c ∉ cookie_key <$> after →
  imposed url c
    ∈ foldl (λ j c, jar_set (cookieDetails url c) j) j (before ++ c :: after).
Proof.
  intros Hlast. rewrite foldl_app. simpl. apply sets_keep.
  - apply jar_set_elem. by right.
  - intros c' Hc' Heq. apply Hlast, list_elem_of_fmap. exists c'.
    by rewrite Heq, imposed_key.
Qed.

Lemma sets_origin url l j x :
  x ∈ foldl (λ j c, jar_set (cookieDetails url c) j) j l →
  x ∈ j ∨ ∃ c, c ∈ l ∧ x = imposed url c.
Proof.
  induction l as [|c l IH] in j |- *; simpl; [by left|]. intros Hx.
  destruct (IH _ Hx) as [Hset | (c' & Hc' & ->)].
  - apply jar_set_elem in Hset as [[Hj _] | ->]; [by left|].
    right. exists c. split; [by left|done].
  - right. exists c'. split; [by right|done].
Qed.

(** *** One pass, on a host that accepts every call *)

Lemma handleCookieManagement_pass (w : World) (tabId : Z)
    (sessionId : jstring) (session : Session) (tab : Tab)
    (tab_url url : jstring) :
  find (λ s, Session.id s = sessionId) (sessions (state w)) = Some session →
  find (λ t, Tab.id t = Some tabId) (tabs (host w)) = Some tab →
  Tab.url tab = Some tab_url →
  tab_url ≠ [] →
  href (host w) tab_url = Some url →
  accepts_all (host w) →
  let fetched :=
    with_calls (host w)
               (calls (host w) ++ [tabs_get tabId; cookies_getAll url]) in
  let currentCookies := jar_getAll (visible (host w)) url (jar (host w)) in
  let sessionCookieNames := Cookie.name <$> Session.cookies session in
  dispatch (λ render, handleCookieManagement render tabId sessionId) w
    = mkWorld
        (mkState
           ((λ s, if bool_decide (Session.id s = sessionId)
                  then Session.with_cookies s currentCookies
                  else s) <$> sessions (state w))
           (activeSessionId (state w)) (newSessionName (state w))
           (loading (state w)) (error (state w)))
        (foldl (impose url)
               (foldl (remove_unknown url sessionCookieNames) fetched
                      currentCookies)
               (Session.cookies session)).
Proof.
  intros Hsession Htab Hurl Hnonempty Hhref Haccept fetched current names.
  unfold dispatch, run, handleCookieManagement, try_catch. rewrite Hsession.
  erewrite bind_returned.
  2: { unfold chrome_tabs_get, host_call. simpl. rewrite Haccept, Htab. done. }
  simpl. rewrite Hurl.
  destruct tab_url as [|u tab_url]; [done|]. simpl.
  erewrite bind_returned.
  2: { unfold URL_href. simpl. rewrite Hhref. done. }
  erewrite bind_returned.
  2: { unfold chrome_cookies_getAll, host_call. simpl. rewrite Haccept. done. }
  erewrite bind_returned; [|done].
  erewrite bind_returned.
  2: { apply removal_loop. done. }
  rewrite set_loop.
  2: { simpl. by apply removals_accept. }
  simpl. unfold fetched. rewrite <- app_assoc. done.
Qed.

(** A record with two cookies of one name, domain and path arises from one
    with two cookies of one name: a set notification for the second cookie
    replaces the first. *)
Lemma session_dup_reachable :
  sessions (state (dispatch (λ render,
      handleCookieChanged render
        (OnChangedInfo.mk false (sample_cookie "x" "1" "/")))
      (mkWorld (mkState [session_two_paths] (Some (js "d")) [] false None)
               (sample_host accepting sample_jar))))
    = [session_dup].
Proof. reflexivity. Qed.

(** C4, as stated, fails for a session that records two cookies with the
    same name, domain and path: the pass sets both, the second replaces the
    first, and the first is not in the jar afterwards. *)
Lemma handleCookieManagement_duplicate_counterexample :
  let w' := dispatch (λ render, handleCookieManagement render 7 (js "d"))
                     dup_world in
  find (λ s, Session.id s = js "d") (sessions (state dup_world))
    = Some session_dup
  ∧ accepts_all (host dup_world)
  ∧ error (state w') = None
  ∧ sample_cookie "x" "1" "/" ∈ Session.cookies session_dup
  ∧ sample_cookie "x" "1" "/" ∉ jar (host w').
Proof.
  split; [done|]. split; [done|]. split; [done|]. split; [by left|].
  by_evaluation.
Qed.

(** C4, amended: in a pass in which the session is found, the tab's URL
    resolves and the host accepts every call, the session record is
    overwritten with the fetched cookies; the host receives a remove call
    for every fetched cookie whose name the session did not record, then a
    set call for every cookie the session recorded; afterwards the jar holds
    every cookie of the pre-pass record that is the last one in it with its
    name, domain and path, with its value, flags and same-site status, and
    with its expiry unless that is zero, and holds no fetched cookie whose
    name the session did not record. *)
Theorem handleCookieManagement_reconciles (w : World) (tabId : Z)
    (sessionId : jstring) (session : Session) (tab : Tab)
    (tab_url url : jstring) :
  find (λ s, Session.id s = sessionId) (sessions (state w)) = Some session →
  find (λ t, Tab.id t = Some tabId) (tabs (host w)) = Some tab →
  Tab.url tab = Some tab_url →
  tab_url ≠ [] →
  href (host w) tab_url = Some url →
  accepts_all (host w) →
  let currentCookies := jar_getAll (visible (host w)) url (jar (host w)) in
  let sessionCookieNames := Cookie.name <$> Session.cookies session in
  let w' := dispatch (λ render, handleCookieManagement render tabId sessionId) w in
  sessions (state w')
    = (λ s, if bool_decide (Session.id s = sessionId)
            then Session.with_cookies s currentCookies
            else s) <$> sessions (state w)
  ∧ calls (host w')
    = calls (host w) ++ [tabs_get tabId; cookies_getAll url]
        ++ ((λ c, cookies_remove url (Cookie.name c))
              <$> filter (λ c, Cookie.name c ∉ sessionCookieNames) currentCookies)
        ++ ((λ c, cookies_set (cookieDetails url c)) <$> Session.cookies session)
  ∧ jar (host w')
    = foldl (λ j c, jar_set (cookieDetails url c) j)
            (filter (λ x, ¬ (visible (host w) url x
                             ∧ Cookie.name x ∉ sessionCookieNames))
                    (jar (host w)))
            (Session.cookies session)
  ∧ (∀ before c after,
       Session.cookies session = before ++ c :: after →
       cookie_key c ∉ cookie_key <$> after →
       imposed url c ∈ jar (host w')
       ∧ (Cookie.expirationDate c ≠ Some 0%Z → c ∈ jar (host w')))
  ∧ (∀ c, c ∈ currentCookies → Cookie.name c ∉ sessionCookieNames →
       c ∉ jar (host w')).
Proof.
  intros Hsession Htab Hurl Hnonempty Hhref Haccept current names w'.
  subst w'. rewrite (handleCookieManagement_pass w tabId sessionId session
                       tab tab_url url) by done.
  simpl. fold current names.
  set (fetched := with_calls (host w) _).
  assert (jar (foldl (impose url)
                     (foldl (remove_unknown url names) fetched current)
                     (Session.cookies session))
          = foldl (λ j c, jar_set (cookieDetails url c) j)
                  (filter (λ x, ¬ (visible (host w) url x
                                   ∧ Cookie.name x ∉ names))
                          (jar (host w)))
                  (Session.cookies session)) as Hjar.
  { rewrite sets_jar. f_equal. apply (removals_jar url names fetched). }
  split; [done|]. split.
  { rewrite sets_calls, removals_calls. simpl. by rewrite <- !app_assoc. }
  split; [done|]. rewrite Hjar. split.
  - intros before c after Hcookies Hlast.
    assert (imposed url c
              ∈ foldl (λ j c, jar_set (cookieDetails url c) j)
                      (filter (λ x, ¬ (visible (host w) url x
                                       ∧ Cookie.name x ∉ names))
                              (jar (host w)))
                      (Session.cookies session)) as Hin.
    { rewrite Hcookies. by apply sets_last. }
    split; [done|]. intros Hexpiry. by rewrite imposed_same in Hin.
  - intros c Hc Hunknown Hin.
    apply list_elem_of_filter in Hc as [Hvisible Hc].
    apply sets_origin in Hin as [Hkept | (c' & Hc' & ->)].
    + apply list_elem_of_filter in Hkept as [Hkept _]. by apply Hkept.
    + apply Hunknown. rewrite imposed_name.
      apply list_elem_of_fmap. by exists c'.
Qed.

Lemma handleCookieManagement_reconciles_witness :
  let w' := dispatch (λ render, handleCookieManagement render 7 (js "b"))
                     reconcile_world in
  sessions (state w')
    = [session_a; Session.with_cookies session_b sample_jar]
  ∧ jar (host w') = [sample_cookie "x" "1" "/"; sample_cookie "y" "2" "/"]
  ∧ sample_cookie "y" "2" "/" ∈ jar (host w')
  ∧ sample_cookie "t" "9" "/" ∉ jar (host w').
Proof.
  destruct (handleCookieManagement_reconciles reconcile_world 7 (js "b")
              session_b (Tab.mk (Some 7%Z) (Some (js "https://example.com/")))
              (js "https://example.com/") (js "https://example.com/"))
    as (Hsessions & _ & Hjar & Hkept & Hgone);
    [reflexivity | reflexivity | reflexivity | discriminate | reflexivity
    | intros c; reflexivity |].
  split; [exact Hsessions|]. split; [exact Hjar|]. split.
  - apply (Hkept [sample_cookie "x" "1" "/"] (sample_cookie "y" "2" "/") []).
    + reflexivity.
    + apply not_elem_of_nil.
    + discriminate.
  - apply Hgone.
    + by_evaluation.
    + by_evaluation.
Defined.

(** * Further properties of the component *)

(** ** Trimmed names *)

Lemma trimStart_drop (s : jstring) : ∃ k, trimStart s = drop k s.
Proof.
  induction s as [|c s [k IH]]; [by exists 0%nat|]. simpl.
  destruct (is_white_space c); [by exists (S k)|by exists 0%nat].
Qed.

Lemma trimStart_head (s : jstring) c r :
  trimStart s = c :: r → is_white_space c = false.
Proof.
  induction s as [|c' s IH]; [done|]. simpl.
  destruct (is_white_space c') eqn:E; [done|]. by intros [= <- _].
Qed.

Lemma trimStart_fixed (s : jstring) :
  (∀ c r, s = c :: r → is_white_space c = false) → trimStart s = s.
Proof.
  destruct s as [|c r]; [done|]. intros Hhead. simpl.
  by rewrite (Hhead c r).
Qed.

Lemma trimStart_idempotent (s : jstring) :
  trimStart (trimStart s) = trimStart s.
Proof. apply trimStart_fixed. intros c r. apply trimStart_head. Qed.

Lemma trimEnd_take (s : jstring) : ∃ k, trimEnd s = take k s.
Proof.
  unfold trimEnd. destruct (trimStart_drop (rev s)) as [k ->].
  exists (length s - k)%nat.
  by rewrite skipn_rev, rev_involutive.
Qed.

Lemma trim_idempotent (s : jstring) : trim (trim s) = trim s.
Proof.
  unfold trim at 1.
  assert (trimStart (trim s) = trim s) as ->.
  { apply trimStart_fixed. intros c r Hs. unfold trim in Hs.
    destruct (trimEnd_take (trimStart s)) as [k Hk]. rewrite Hk in Hs.
    destruct (trimStart s) as [|c' r'] eqn:Hstart.
    { by rewrite take_nil in Hs. }
    destruct k as [|k]; [done|]. simpl in Hs. injection Hs as <- _.
    by apply (trimStart_head s c' r'). }
  unfold trim, trimEnd. rewrite rev_involutive.
  by rewrite trimStart_idempotent.
Qed.

Lemma length_trim (s : jstring) : length (trim s) ≤ length s.
Proof.
  unfold trim. destruct (trimEnd_take (trimStart s)) as [k ->].
  destruct (trimStart_drop s) as [j ->].
  rewrite length_take, length_drop. lia.
Qed.

(** ** More on [createSession] *)

Lemma createSession_world_created (w : World) (name : jstring) :
  valid_name (state w) name →
  rejects (host w) tabs_create = false →
  let id := new_uuid (host w) in
  dispatch (λ render, createSession render name) w
    = mkWorld
        (mkState
           ((λ session, if bool_decide (Session.id session = id)
                        then Session.with_tabId session (Tab.id (new_tab (host w)))
                        else session)
              <$> (sessions (state w) ++ [Session.mk id (trim name) None []]))
           (Some id) [] (loading (state w)) None)
        (with_tabs (with_calls (host w) (calls (host w) ++ [tabs_create]))
                   (tabs (host w) ++ [new_tab (host w)])).
Proof.
  intros Hvalid Haccept. unfold dispatch, run.
  rewrite createSession_checks_pass by done.
  unfold mbind, Handler_bind, try_catch, chrome_tabs_create, host_call.
  simpl. rewrite Haccept. done.
Qed.

Lemma fmap_fresh_id (l : list Session) (id : jstring) (v : option Z) :
  id ∉ Session.id <$> l →
  (λ session, if bool_decide (Session.id session = id)
              then Session.with_tabId session v
              else session) <$> l = l.
Proof.
  induction l as [|s l IH]; [done|]. rewrite !fmap_cons, not_elem_of_cons.
  intros [Hs Hl]. rewrite bool_decide_eq_false_2 by done. by rewrite IH.
Qed.

(** X1: for a valid name, an accepted tab creation and a new id,
    [createSession] leaves the sessions it found as they were and appends
    one session with the new id, the trimmed name, the id of the created tab
    and no cookies; it empties the input and the error, and the one host
    call it issues is the tab creation. *)
Theorem createSession_appends (w : World) (name : jstring) :
  valid_name (state w) name →
  rejects (host w) tabs_create = false →
  new_uuid (host w) ∉ Session.id <$> sessions (state w) →
  let w' := dispatch (λ render, createSession render name) w in
  sessions (state w')
    = sessions (state w)
        ++ [Session.mk (new_uuid (host w)) (trim name)
                       (Tab.id (new_tab (host w))) []]
  ∧ newSessionName (state w') = []
  ∧ error (state w') = None
  ∧ calls (host w') = calls (host w) ++ [tabs_create]
  ∧ tabs (host w') = tabs (host w) ++ [new_tab (host w)]
  ∧ jar (host w') = jar (host w).
Proof.
  intros Hvalid Haccept Hfresh w'. subst w'.
  rewrite createSession_world_created by done. simpl.
  rewrite fmap_app, fmap_fresh_id by done. simpl.
  by rewrite bool_decide_eq_true_2.
Qed.

Lemma createSession_appends_witness :
  let w' := dispatch (λ render, createSession render (js " Carol "))
                     two_sessions_world in
  sessions (state w')
    = [session_a; session_b;
       Session.mk (js "uuid-1") (js "Carol") (Some 8%Z) []]
  ∧ newSessionName (state w') = []
  ∧ error (state w') = None
  ∧ calls (host w') = [tabs_create]
  ∧ tabs (host w')
    = [Tab.mk (Some 7%Z) (Some (js "https://example.com/"));
       Tab.mk (Some 8%Z) None]
  ∧ jar (host w') = [].
Proof.
  apply (createSession_appends two_sessions_world (js " Carol ")).
  - split; [done|]. split; [vm_compute; lia|]. by_evaluation.
  - reflexivity.
  - by_evaluation.
Defined.

(** The names after [createSession], whatever the host answers. *)
Lemma createSession_names (w : World) (name : jstring) :
  let w' := dispatch (λ render, createSession render name) w in
  Session.name <$> sessions (state w') = Session.name <$> sessions (state w)
  ∨ (valid_name (state w) name
     ∧ Session.name <$> sessions (state w')
       = (Session.name <$> sessions (state w)) ++ [trim name])
  ∨ (valid_name (state w) name
     ∧ sessions (state w')
       = filter (λ s, Session.id s ≠ new_uuid (host w))
                (sessions (state w)
                   ++ [Session.mk (new_uuid (host w)) (trim name) None []])).
Proof.
  intros w'. subst w'.
  destruct (decide (valid_name (state w) name)) as [Hvalid|Hbad].
  - destruct (rejects (host w) tabs_create) eqn:Htab.
    + right; right. split; [done|].
      by rewrite createSession_tab_failed by done.
    + right; left. split; [done|].
      rewrite createSession_tab_created by done. simpl.
      rewrite <- list_fmap_compose, fmap_app. f_equal.
      * apply list_fmap_ext. intros i s _. simpl. by case_bool_decide.
      * simpl. by case_bool_decide.
  - left. by destruct (createSession_checks_fail w name Hbad) as (msg & _ & ->).
Qed.

(** X2: [createSession] keeps the session names pairwise different, whether
    the name is accepted or not and whether the tab is created or not. *)
Theorem createSession_names_unique (w : World) (name : jstring) :
  names_unique (state w) →
  names_unique (state (dispatch (λ render, createSession render name) w)).
Proof.
  unfold names_unique. intros Hunique.
  destruct (createSession_names w name)
    as [-> | [(Hvalid & ->) | (Hvalid & ->)]]; [done|..].
  - apply NoDup_app. split; [done|]. split; [|apply NoDup_singleton].
    intros n Hn ->%list_elem_of_singleton. by destruct Hvalid as (_ & _ & Hnew).
  - eapply sublist_NoDup; [|apply fmap_sublist, sublist_filter].
    rewrite fmap_app. apply NoDup_app. split; [done|].
    split; [|apply NoDup_singleton].
    intros n Hn ->%list_elem_of_singleton. by destruct Hvalid as (_ & _ & Hnew).
Qed.

Lemma createSession_names_unique_witness :
  names_unique
    (state (dispatch (λ render, createSession render (js " Carol "))
                     two_sessions_world)).
Proof.
  apply (createSession_names_unique two_sessions_world (js " Carol ")).
  by_evaluation.
Defined.

Lemma truncateString_short (str : jstring) (n : nat) :
  length str ≤ n → truncateString str n = str.
Proof.
  intros Hlen. unfold truncateString. rewrite bool_decide_eq_false_2; [done|lia].
Qed.

(** A name that passes the checks gives a well-formed session name. *)
Lemma valid_name_well_formed (st : State) (name : jstring) :
  valid_name st name →
  trim name ≠ []
  ∧ trim (trim name) = trim name
  ∧ length (trim name) ≤ MAX_SESSION_NAME_LENGTH.
Proof.
  intros (Hne & Hlen & _). split; [done|]. split; [apply trim_idempotent|].
  pose proof (length_trim name). lia.
Qed.

(** X3: when every session name is non-empty, trimmed and of at most
    [MAX_SESSION_NAME_LENGTH] code units, the same holds after
    [createSession], and the rows of the list show every name in full
    ([truncateString] cuts none). *)
Theorem createSession_names_well_formed (w : World) (name : jstring) :
  names_well_formed (state w) →
  let w' := dispatch (λ render, createSession render name) w in
  names_well_formed (state w')
  ∧ (session_row (state w') <$> sessions (state w')).*1
    = Session.name <$> sessions (state w').
Proof.
  intros Hwf w'.
  assert (names_well_formed (state w')) as Hwf'.
  { subst w'. intros s. destruct (createSession_names w name)
      as [Hsame | [(Hvalid & Happ) | (Hvalid & ->)]].
    - intros Hs.
      assert (Session.name s ∈ Session.name <$> sessions (state w)) as Hn.
      { rewrite <- Hsame. apply list_elem_of_fmap. eauto. }
      apply list_elem_of_fmap in Hn as (s0 & -> & Hs0). by apply Hwf.
    - intros Hs.
      assert (Session.name s
                ∈ (Session.name <$> sessions (state w)) ++ [trim name]) as Hn.
      { rewrite <- Happ. apply list_elem_of_fmap. eauto. }
      apply elem_of_app in Hn as [Hn | ->%list_elem_of_singleton].
      + apply list_elem_of_fmap in Hn as (s0 & -> & Hs0). by apply Hwf.
      + by eapply valid_name_well_formed.
    - intros [_ Hs]%list_elem_of_filter.
      apply elem_of_app in Hs as [Hs | ->%list_elem_of_singleton].
      + by apply Hwf.
      + by eapply valid_name_well_formed. }
  split; [done|]. rewrite <- list_fmap_compose.
  apply list_fmap_ext. intros i s Hs. simpl.
  apply truncateString_short, Hwf'. by eapply list_elem_of_lookup_2.
Qed.

Lemma createSession_names_well_formed_witness :
  let w' := dispatch (λ render, createSession render (js " Carol "))
                     two_sessions_world in
  names_well_formed (state w')
  ∧ (session_row (state w') <$> sessions (state w')).*1
    = [js "Alice"; js "Bob"; js "Carol"].
Proof.
  apply (createSession_names_well_formed two_sessions_world (js " Carol ")).
  intros s Hs. simpl in Hs.
  apply elem_of_cons in Hs as [-> | Hs];
    [|apply list_elem_of_singleton in Hs as ->];
    (split; [done|]; split; [reflexivity|vm_compute; lia]).
Defined.

(** X4: after [createSession] has appended a session for a name, a further
    [createSession] with a name that is the same after trimming reports the
    duplicate and changes neither the list, nor the active session, nor the
    host. *)
Theorem createSession_again_duplicate (w : World) (name again : jstring) :
  valid_name (state w) name →
  rejects (host w) tabs_create = false →
  trim again = trim name →
  let w1 := dispatch (λ render, createSession render name) w in
  let w2 := dispatch (λ render, createSession render again) w1 in
  error (state w2) = Some "A session with this name already exists."
  ∧ sessions (state w2) = sessions (state w1)
  ∧ activeSessionId (state w2) = activeSessionId (state w1)
  ∧ host w2 = host w1.
Proof.
  intros Hvalid Haccept Hsame w1 w2.
  assert (trim name ∈ Session.name <$> sessions (state w1)) as Hin.
  { subst w1. rewrite createSession_tab_created by done. simpl.
    rewrite <- list_fmap_compose, fmap_app, elem_of_app. right.
    simpl. rewrite bool_decide_eq_true_2 by done. apply list_elem_of_here. }
  subst w2. unfold dispatch at 1 2 3 4, run, createSession.
  rewrite Hsame. destruct Hvalid as (Hne & _ & _).
  destruct (truthy_string (trim name)) eqn:Htrim.
  2: { by apply truthy_string_trim_nil in Htrim. }
  simpl. rewrite bool_decide_eq_true_2; [done|].
  apply Exists_exists. apply list_elem_of_fmap in Hin as (s & Hs & Hin). eauto.
Qed.

Lemma createSession_again_duplicate_witness :
  let w1 := dispatch (λ render, createSession render (js "Carol"))
                     two_sessions_world in
  let w2 := dispatch (λ render, createSession render (js "  Carol ")) w1 in
  error (state w2) = Some "A session with this name already exists."
  ∧ sessions (state w2) = sessions (state w1)
  ∧ activeSessionId (state w2) = activeSessionId (state w1)
  ∧ host w2 = host w1.
Proof.
  apply (createSession_again_duplicate two_sessions_world
           (js "Carol") (js "  Carol ")).
  - split; [done|]. split; [vm_compute; lia|]. by_evaluation.
  - reflexivity.
  - reflexivity.
Defined.

(** X5: the message [createSession] reports follows the order of its checks:
    a name that is empty after trimming is reported as empty, whatever its
    length; otherwise a name equal after trimming to an existing one is
    reported as a duplicate, whatever its length; otherwise a name of more
    than [MAX_SESSION_NAME_LENGTH] code units, surrounding white space
    included, is reported as too long. *)
Theorem createSession_message (w : World) (name : jstring) :
  let w' := dispatch (λ render, createSession render name) w in
  (trim name = [] →
   error (state w') = Some "Session name cannot be empty.")
  ∧ (trim name ≠ [] →
     trim name ∈ Session.name <$> sessions (state w) →
     error (state w') = Some "A session with this name already exists.")
  ∧ (trim name ≠ [] →
     trim name ∉ Session.name <$> sessions (state w) →
     MAX_SESSION_NAME_LENGTH < length name →
     error (state w')
       = Some "Session name cannot be longer than 20 characters.").
Proof.
  intros w'. subst w'. unfold dispatch, run, createSession.
  destruct (truthy_string (trim name)) eqn:Htrim; simpl.
  2: { apply truthy_string_trim_nil in Htrim. by rewrite Htrim. }
  assert (trim name ≠ []) as Hne.
  { intros Hnil. by rewrite Hnil in Htrim. }
  case_bool_decide as Hdup; simpl.
  - split; [done|]. split; [done|]. intros _ Hnew. exfalso. apply Hnew.
    apply Exists_exists in Hdup as (s & Hs & Heq).
    apply list_elem_of_fmap. eauto.
  - assert (trim name ∉ Session.name <$> sessions (state w)) as Hnew.
    { intros (s & Heq & Hs)%list_elem_of_fmap. apply Hdup, Exists_exists. eauto. }
    split; [done|]. split; [done|]. intros _ _ Hlong.
    by rewrite bool_decide_eq_true_2.
Qed.

Lemma createSession_message_witness :
  error (state (dispatch (λ render,
                  createSession render (js "                         "))
                  two_sessions_world))
    = Some "Session name cannot be empty."
  ∧ error (state (dispatch (λ render,
                    createSession render (js "          Bob            "))
                    two_sessions_world))
    = Some "A session with this name already exists."
  ∧ error (state (dispatch (λ render,
                    createSession render (js "          Carol          "))
                    two_sessions_world))
    = Some "Session name cannot be longer than 20 characters.".
Proof.
  split; [|split].
  - apply (createSession_message two_sessions_world). reflexivity.
  - apply (createSession_message two_sessions_world); [done|by_evaluation].
  - apply (createSession_message two_sessions_world);
      [done|by_evaluation|vm_compute; lia].
Defined.

(** ** More on [deleteSession] *)

Lemma find_app_fresh (l : list Session) (new : Session) :
  Session.id new ∉ Session.id <$> l →
  find (λ session, Session.id session = Session.id new) (l ++ [new])
    = Some new.
Proof.
  induction l as [|s l IH]; simpl.
  { intros _. apply find_head. }
  rewrite not_elem_of_cons. intros [Hs Hl]. specialize (IH Hl).
  unfold find in *. simpl. rewrite decide_False by done.
  destruct (list_find _ (l ++ [new])) as [[i x]|]; simpl in *; [done|done].
Qed.

(** X6: deleting the session that [createSession] has just appended (new
    id, tab created) gives back the list as it was before the creation; the
    active session is then the first session of that list, or none when the
    list is empty, whichever session was active before. *)
Theorem createSession_then_deleteSession (w : World) (name : jstring) :
  valid_name (state w) name →
  rejects (host w) tabs_create = false →
  new_uuid (host w) ∉ Session.id <$> sessions (state w) →
  let w1 := dispatch (λ render, createSession render name) w in
  let w2 := dispatch (λ render, deleteSession render (new_uuid (host w))) w1 in
  sessions (state w2) = sessions (state w)
  ∧ activeSessionId (state w2) = Session.id <$> head (sessions (state w)).
Proof.
  intros Hvalid Haccept Hfresh w1 w2.
  assert (state w1
          = mkState (sessions (state w)
                       ++ [Session.mk (new_uuid (host w)) (trim name)
                                      (Tab.id (new_tab (host w))) []])
                    (Some (new_uuid (host w))) [] (loading (state w)) None)
    as Hw1.
  { subst w1. rewrite createSession_tab_created by done. simpl.
    rewrite fmap_app, fmap_fresh_id by done. simpl.
    by rewrite bool_decide_eq_true_2. }
  set (new := Session.mk (new_uuid (host w)) (trim name)
                         (Tab.id (new_tab (host w))) []) in *.
  destruct (deleteSession_found w1 (new_uuid (host w)) new) as [Hs Ha].
  { rewrite Hw1. simpl. by apply (find_app_fresh _ new). }
  fold w2 in Hs, Ha. rewrite Hw1 in Hs, Ha. simpl in Hs, Ha.
  rewrite filter_app, filter_fresh_id in Hs by done.
  rewrite filter_cons_False, filter_nil, app_nil_r in Hs
    by (intros Hne; by apply Hne).
  split; [done|]. rewrite Ha, bool_decide_eq_true_2 by done.
  rewrite length_app. simpl.
  destruct (sessions (state w)) as [|s l]; simpl; [done|].
  rewrite bool_decide_eq_true_2 by lia. done.
Qed.

Lemma createSession_then_deleteSession_witness :
  let w1 := dispatch (λ render, createSession render (js "Carol"))
                     two_sessions_world in
  let w2 := dispatch (λ render, deleteSession render (js "uuid-1")) w1 in
  sessions (state w2) = [session_a; session_b]
  ∧ activeSessionId (state w2) = Some (js "a").
Proof.
  apply (createSession_then_deleteSession two_sessions_world (js "Carol")).
  - split; [done|]. split; [vm_compute; lia|]. by_evaluation.
  - reflexivity.
  - by_evaluation.
Defined.

(** X7: deleting a session that is in the list but is not the active one
    removes the sessions with that id and nothing else, and leaves the active
    session id, the input and the loading flag as they were, whatever the
    host answers to the tab and cookie calls. *)
Theorem deleteSession_inactive (w : World) (id : jstring) :
  id ∈ Session.id <$> sessions (state w) →
  activeSessionId (state w) ≠ Some id →
  let w' := dispatch (λ render, deleteSession render id) w in
  sessions (state w')
    = filter (λ session, Session.id session ≠ id) (sessions (state w))
  ∧ (id ∉ Session.id <$> sessions (state w'))
  ∧ length (sessions (state w')) < length (sessions (state w))
  ∧ activeSessionId (state w') = activeSessionId (state w).
Proof.
  intros Hin Hinactive w'.
  destruct (find (λ session, Session.id session = id) (sessions (state w)))
    as [found|] eqn:Hfind.
  2: { apply find_None in Hfind. rewrite Forall_forall in Hfind.
       apply list_elem_of_fmap in Hin as (s & -> & Hs). by destruct (Hfind s Hs). }
  destruct (deleteSession_found w id found Hfind) as [Hs Ha]. fold w' in Hs, Ha.
  rewrite bool_decide_eq_false_2 in Ha by done.
  split; [done|]. rewrite Hs. split; [apply filter_id_not_elem|]. split; [|done].
  apply find_Some in Hfind as [Hfound Hid].
  eapply (length_filter_lt _ _ found); [done|]. intros Hne. by apply Hne.
Qed.

Lemma deleteSession_inactive_witness :
  let w' := dispatch (λ render, deleteSession render (js "b"))
                     two_sessions_world in
  sessions (state w') = [session_a]
  ∧ (js "b" ∉ Session.id <$> sessions (state w'))
  ∧ length (sessions (state w')) < 2
  ∧ activeSessionId (state w') = Some (js "a").
Proof.
  apply (deleteSession_inactive two_sessions_world (js "b")).
  - by_evaluation.
  - discriminate.
Defined.

Lemma forget_loop (l : list Cookie) (w : World) :
  accepts_all (host w) →
  for_of l (λ cookie,
            chrome_cookies_remove (cookie_url cookie) (Cookie.name cookie)) w
    = (Returned (), mkWorld (state w) (foldl forget (host w) l)).
Proof.
  induction l as [|cookie l IH] in w |- *; intros Haccept.
  { by destruct w. }
  simpl. unfold mbind, Handler_bind.
  assert (chrome_cookies_remove (cookie_url cookie) (Cookie.name cookie) w
          = (Returned (), mkWorld (state w) (forget (host w) cookie))) as ->.
  { unfold chrome_cookies_remove, host_call. simpl. by rewrite Haccept. }
  rewrite IH; done.
Qed.

Lemma forget_calls (l : list Cookie) (h : Host) :
  calls (foldl forget h l)
    = calls h ++ ((λ c, cookies_remove (cookie_url c) (Cookie.name c)) <$> l).
Proof.
  induction l as [|c l IH] in h |- *; simpl.
  { by rewrite app_nil_r. }
  rewrite IH. simpl. by rewrite <- app_assoc.
Qed.

Lemma forget_tabs (l : list Cookie) (h : Host) :
  tabs (foldl forget h l) = tabs h.
Proof. induction l as [|c l IH] in h |- *; [done|]. simpl. by rewrite IH. Qed.

(** X8: on a host that accepts every call, [deleteSession] of a session of
    the list first closes the session's tab, if its tab id is set and not
    zero, then issues one remove call per recorded cookie, in order, for the
    cookie's name and the URL made of its scheme (https when secure, http
    otherwise), domain and path; the error is left as it was. *)
Theorem deleteSession_calls (w : World) (id : jstring) (session : Session) :
  find (λ s, Session.id s = id) (sessions (state w)) = Some session →
  accepts_all (host w) →
  let w' := dispatch (λ render, deleteSession render id) w in
  calls (host w')
    = calls (host w) ++ close_call session
        ++ ((λ c, cookies_remove (cookie_url c) (Cookie.name c))
              <$> Session.cookies session)
  ∧ error (state w') = error (state w).
Proof.
  intros Hfind Haccept w'. subst w'.
  unfold dispatch, run, deleteSession, close_call. rewrite Hfind.
  assert (∀ h0 (st0 : State),
            accepts_all h0 →
            let w0 := mkWorld st0 h0 in
            let w1 := ((try_catch
                          (for_of (Session.cookies session) (λ cookie,
                             chrome_cookies_remove (cookie_url cookie)
                                                   (Cookie.name cookie)))
                          (setError (Some
                             "Failed to remove session cookies.  Please check the console."));;
                        setSessions (λ prevSessions,
                          filter (λ session, Session.id session ≠ id) prevSessions);;
                        if bool_decide (activeSessionId (state w) = Some id) then
                          setActiveSessionId
                            (if bool_decide (1 < length (sessions (state w)))
                             then Session.id <$> sessions (state w) !! 0%nat
                             else None)
                        else mret ()) w0).2 in
            calls (host w1)
              = calls h0 ++ ((λ c, cookies_remove (cookie_url c) (Cookie.name c))
                               <$> Session.cookies session)
            ∧ error (state w1) = error st0) as Hrest.
  { intros h0 st0 Haccept0 w0 w1. subst w1.
    erewrite bind_returned.
    2: { unfold try_catch. rewrite forget_loop by done. done. }
    unfold mbind, Handler_bind.
    case_bool_decide; simpl; by rewrite forget_calls. }
  destruct (Session.tabId session) as [tabId|].
  - destruct (truthy_number (Some tabId)).
    + erewrite bind_returned.
      2: { unfold try_catch, chrome_tabs_remove, host_call. simpl.
           rewrite Haccept. done. }
      edestruct Hrest as [-> ->]; [|simpl; by rewrite <- app_assoc]. done.
    + erewrite bind_returned; [|done].
      destruct w as [st h]. by edestruct (Hrest h st) as [-> ->].
  - erewrite bind_returned; [|done].
    destruct w as [st h]. by edestruct (Hrest h st) as [-> ->].
Qed.

Lemma deleteSession_calls_witness :
  let w' := dispatch (λ render, deleteSession render (js "d")) dup_world in
  calls (host w')
    = [tabs_remove 7;
       cookies_remove (js "http://example.com/") (js "x");
       cookies_remove (js "http://example.com/") (js "x")]
  ∧ error (state w') = None.
Proof.
  apply (deleteSession_calls dup_world (js "d") session_dup); done.
Defined.

(** The removal loop throws exactly when the host rejects one of its calls;
    the component state is not touched. *)
Lemma forget_loop_outcome (l : list Cookie) (w : World) :
  let result := for_of l (λ cookie,
                  chrome_cookies_remove (cookie_url cookie) (Cookie.name cookie)) w in
  (rejects_removal (host w) l → result.1 = Thrown)
  ∧ (¬ rejects_removal (host w) l → result.1 = Returned ())
  ∧ state result.2 = state w.
Proof.
  unfold rejects_removal.
  induction l as [|c l IH] in w |- *.
  { split; [by intros ?%Exists_nil|done]. }
  cbn [for_of].
  unfold mbind, Handler_bind, chrome_cookies_remove at 1 3 5, host_call.
  cbn [host rejects with_calls state].
  destruct (rejects (host w) (cookies_remove (cookie_url c) (Cookie.name c)))
    eqn:Hc.
  - split; [done|]. split; [|done]. intros Hnone. exfalso. apply Hnone. by left.
  - cbn [fst snd].
    destruct (IH (mkWorld (state w)
       (with_jar (with_calls (host w) (calls (host w) ++
          [cookies_remove (cookie_url c) (Cookie.name c)]))
          (jar_remove (visible (host w)) (cookie_url c) (Cookie.name c)
                      (jar (host w)))))) as (Hthrown & Hreturned & Hstate).
    cbn [host state rejects with_jar with_calls] in *.
    split; [|split; [|done]].
    + intros [Hc'|Hl]%Exists_cons; [congruence|by apply Hthrown].
    + intros Hnone. apply Hreturned. intros Hl. apply Hnone. by right.
Qed.

Lemma close_tab_returns (session : Session) (w : World) :
  ∃ w1,
    match Session.tabId session with
    | Some tabId =>
        if truthy_number (Some tabId)
        then try_catch (chrome_tabs_remove tabId) (mret ())
        else mret ()
    | None => mret ()
    end w = (Returned (), w1)
    ∧ state w1 = state w
    ∧ rejects (host w1) = rejects (host w).
Proof.
  destruct (Session.tabId session) as [tabId|]; [|by exists w].
  destruct (truthy_number _); [|by exists w].
  unfold try_catch, chrome_tabs_remove, host_call. simpl.
  destruct (rejects (host w) (tabs_remove tabId)); by eexists.
Qed.

(** X9: whether [deleteSession] leaves an error depends on the cookie calls
    alone: when the host rejects the removal of one of the recorded cookies
    the message about the session cookies is set, otherwise the error is
    left as it was, also when closing the tab fails; in both cases the
    session is removed from the list. *)
Theorem deleteSession_error (w : World) (id : jstring) (session : Session) :
  find (λ s, Session.id s = id) (sessions (state w)) = Some session →
  let w' := dispatch (λ render, deleteSession render id) w in
  (rejects_removal (host w) (Session.cookies session) →
   error (state w')
     = Some "Failed to remove session cookies.  Please check the console.")
  ∧ (¬ rejects_removal (host w) (Session.cookies session) →
     error (state w') = error (state w))
  ∧ sessions (state w')
    = filter (λ s, Session.id s ≠ id) (sessions (state w)).
Proof.
  intros Hfind w'.
  split; [|split; [|by destruct (deleteSession_found w id session Hfind)]];
    subst w'; unfold dispatch, run, deleteSession; rewrite Hfind;
    destruct (close_tab_returns session w) as (w1 & E & Hst & Hrej);
    rewrite (bind_returned _ _ _ _ _ E);
    intros Hremoval; unfold mbind at 1, Handler_bind at 1, try_catch;
    destruct (forget_loop_outcome (Session.cookies session) w1)
      as (Hthrown & Hreturned & Hstate);
    unfold rejects_removal in *; rewrite Hrej in Hthrown, Hreturned;
    destruct (for_of _ _ w1) as [out w2]; simpl in Hthrown, Hreturned, Hstate.
  - rewrite Hthrown by done.
    unfold mbind, Handler_bind. simpl. by case_bool_decide.
  - rewrite Hreturned by done.
    unfold mbind, Handler_bind. simpl. rewrite Hstate, Hst. by case_bool_decide.
Qed.

Lemma deleteSession_error_witness :
  (let w' := dispatch (λ render, deleteSession render (js "d"))
                      (dup_world_on no_cookie_removal) in
   error (state w')
     = Some "Failed to remove session cookies.  Please check the console."
   ∧ sessions (state w') = [])
  ∧ (let w' := dispatch (λ render, deleteSession render (js "d"))
                        (dup_world_on no_tab_close) in
     error (state w') = None ∧ sessions (state w') = []).
Proof.
  destruct (deleteSession_error (dup_world_on no_cookie_removal) (js "d")
              session_dup eq_refl) as (Hset & _ & Hgone).
  destruct (deleteSession_error (dup_world_on no_tab_close) (js "d")
              session_dup eq_refl) as (_ & Hkept & Hgone').
  split; (split; [|done]).
  - apply Hset. by left.
  - apply Hkept. intros Hrej. unfold rejects_removal in Hrej.
    apply Exists_exists in Hrej as (c & _ & Hc). discriminate Hc.
Defined.

(** ** More on the reconciliation pass *)

(** X10: a pass for a session id that is not in the list does nothing at
    all; a pass whose tab is unknown to the host, or has no URL or an empty
    one, stops after the tab lookup: the component state (sessions, error)
    and the jar are as before and the lookup is the only call issued. *)
Theorem handleCookieManagement_aborts (w : World) (tabId : Z)
    (sessionId : jstring) :
  let w' := dispatch (λ render, handleCookieManagement render tabId sessionId) w in
  (sessionId ∉ Session.id <$> sessions (state w) → w' = w)
  ∧ (sessionId ∈ Session.id <$> sessions (state w) →
     rejects (host w) (tabs_get tabId) = false →
     (find (λ t, Tab.id t = Some tabId) (tabs (host w)) ≫= Tab.url = None
      ∨ find (λ t, Tab.id t = Some tabId) (tabs (host w)) ≫= Tab.url = Some []) →
     state w' = state w
     ∧ jar (host w') = jar (host w)
     ∧ calls (host w') = calls (host w) ++ [tabs_get tabId]).
Proof.
  intros w'. subst w'. unfold dispatch, run, handleCookieManagement, try_catch.
  split.
  - intros Hid. replace (find _ (sessions (state w))) with (@None Session).
    { by destruct w. }
    symmetry. apply find_None, Forall_forall. intros s Hs Heq.
    apply Hid, list_elem_of_fmap. eauto.
  - intros Hid Haccept Hurl.
    destruct (find (λ s, Session.id s = sessionId) (sessions (state w)))
      as [session|] eqn:Hfind.
    2: { apply find_None in Hfind. rewrite Forall_forall in Hfind.
         apply list_elem_of_fmap in Hid as (s & -> & Hs).
         by destruct (Hfind s Hs). }
    erewrite bind_returned.
    2: { unfold chrome_tabs_get, host_call. simpl. rewrite Haccept. done. }
    simpl. destruct Hurl as [-> | ->]; simpl; by destruct w as [[] ?].
Qed.

Lemma handleCookieManagement_aborts_witness :
  dispatch (λ render, handleCookieManagement render 7 (js "ghost"))
           reconcile_world = reconcile_world
  ∧ (let w' := dispatch (λ render, handleCookieManagement render 99 (js "b"))
                        reconcile_world in
     state w' = state reconcile_world
     ∧ jar (host w') = sample_jar
     ∧ calls (host w') = [tabs_get 99]).
Proof.
  destruct (handleCookieManagement_aborts reconcile_world 7 (js "ghost"))
    as [Hghost _].
  destruct (handleCookieManagement_aborts reconcile_world 99 (js "b"))
    as [_ Htab].
  split.
  - apply Hghost. by_evaluation.
  - apply Htab; [by_evaluation|reflexivity|by left].
Defined.

(** X11: when the tab lookup is rejected, or the tab's URL is not a URL, or
    the fetch of the cookies is rejected, the pass sets the cookie-management
    error and changes neither the sessions, nor the active session id, nor
    the jar. *)
Theorem handleCookieManagement_early_failure (w : World) (tabId : Z)
    (sessionId : jstring) (session : Session) :
  find (λ s, Session.id s = sessionId) (sessions (state w)) = Some session →
  rejects (host w) (tabs_get tabId) = true
  ∨ (∃ tab tab_url,
       rejects (host w) (tabs_get tabId) = false
       ∧ find (λ t, Tab.id t = Some tabId) (tabs (host w)) = Some tab
       ∧ Tab.url tab = Some tab_url ∧ tab_url ≠ []
       ∧ (href (host w) tab_url = None
          ∨ ∃ url, href (host w) tab_url = Some url
                   ∧ rejects (host w) (cookies_getAll url) = true)) →
  let w' := dispatch (λ render, handleCookieManagement render tabId sessionId) w in
  error (state w') = Some "Error managing cookies. Please check console."
  ∧ sessions (state w') = sessions (state w)
  ∧ activeSessionId (state w') = activeSessionId (state w)
  ∧ jar (host w') = jar (host w).
Proof.
  intros Hfind Hfail w'. subst w'.
  unfold dispatch, run, handleCookieManagement, try_catch. rewrite Hfind.
  destruct Hfail as [Hget | (tab & tab_url & Hget & Htab & Hurl & Hne & Hfail)].
  - unfold mbind, Handler_bind, chrome_tabs_get, host_call. simpl.
    by rewrite Hget.
  - erewrite bind_returned.
    2: { unfold chrome_tabs_get, host_call. simpl. rewrite Hget, Htab. done. }
    simpl. rewrite Hurl. destruct tab_url as [|u tab_url]; [done|]. simpl.
    destruct Hfail as [Hhref | (url & Hhref & Hfetch)].
    + unfold mbind, Handler_bind, URL_href. simpl. by rewrite Hhref.
    + erewrite bind_returned.
      2: { unfold URL_href. simpl. rewrite Hhref. done. }
      unfold mbind, Handler_bind, chrome_cookies_getAll, host_call. simpl.
      by rewrite Hfetch.
Qed.

Lemma handleCookieManagement_early_failure_witness :
  let w' := dispatch (λ render, handleCookieManagement render 7 (js "d"))
                     (dup_world_on no_cookie_fetch) in
  error (state w') = Some "Error managing cookies. Please check console."
  ∧ sessions (state w') = [session_dup]
  ∧ activeSessionId (state w') = Some (js "d")
  ∧ jar (host w') = sample_jar.
Proof.
  apply (handleCookieManagement_early_failure (dup_world_on no_cookie_fetch)
           7 (js "d") session_dup eq_refl).
  right. exists (Tab.mk (Some 7%Z) (Some (js "https://example.com/"))).
  exists (js "https://example.com/").
  split; [reflexivity|]. split; [reflexivity|]. split; [reflexivity|].
  split; [discriminate|]. right. by exists (js "https://example.com/").
Defined.

Lemma bind_host_only {A B} (m : Handler A) (k : A → Handler B) :
  host_only m → (∀ a, host_only (k a)) → host_only (m ≫= k).
Proof.
  intros Hm Hk w. unfold mbind, Handler_bind. specialize (Hm w).
  destruct (m w) as [[a|] w1]; simpl in *; [|done]. by rewrite Hk.
Qed.

Lemma mret_host_only {A} (a : A) : host_only (mret a : Handler A).
Proof. done. Qed.

Lemma pass_loops_host_only (url : jstring) (names : list jstring)
    (current recorded : list Cookie) :
  host_only
    (for_of current (λ cookie,
       if negb (bool_decide (Cookie.name cookie ∈ names))
       then chrome_cookies_remove url (Cookie.name cookie)
       else mret ());;
     for_of recorded (λ cookie, chrome_cookies_set (cookieDetails url cookie))).
Proof.
  apply bind_host_only.
  - apply for_of_host_only. intros c. destruct (negb _).
    + apply host_call_host_only.
    + apply mret_host_only.
  - intros _. apply for_of_host_only. intros c. apply host_call_host_only.
Qed.

(** The pass has left the state as it was, but for the error. *)
Ltac state_kept E :=
  simpl in E; injection E as <- <-; simpl; split_and!;
  [done | done | done | by left].

(** The component state after a pass, whatever the host answers: the
    sessions are untouched, or the sessions with the id have their cookies
    replaced; nothing but the error changes besides. *)
Lemma handleCookieManagement_state (w : World) (tabId : Z)
    (sessionId : jstring) :
  let w' := dispatch (λ render, handleCookieManagement render tabId sessionId) w in
  activeSessionId (state w') = activeSessionId (state w)
  ∧ newSessionName (state w') = newSessionName (state w)
  ∧ loading (state w') = loading (state w)
  ∧ (sessions (state w') = sessions (state w)
     ∨ ∃ cookies,
         sessions (state w') = record_cookies sessionId cookies (sessions (state w))).
Proof.
  intros w'. subst w'. unfold dispatch, run.
  destruct (handleCookieManagement (state w) tabId sessionId w)
    as [out w'] eqn:E.
  unfold handleCookieManagement, try_catch in E.
  destruct (find _ (sessions (state w))) as [session|]; [|state_kept E].
  unfold mbind at 1, Handler_bind at 1, chrome_tabs_get, host_call in E.
  simpl in E.
  destruct (rejects (host w) (tabs_get tabId)); [state_kept E|]. simpl in E.
  destruct (find _ (tabs (host w)) ≫= Tab.url) as [[|u tab_url]|];
    [state_kept E| |state_kept E]. simpl in E.
  unfold mbind at 1, Handler_bind at 1, URL_href in E. simpl in E.
  destruct (href (host w) (u :: tab_url)) as [url|]; [|state_kept E].
  unfold mbind at 1, Handler_bind at 1, chrome_cookies_getAll, host_call in E.
  simpl in E.
  destruct (rejects (host w) (cookies_getAll url)); [state_kept E|].
  unfold mbind at 1, Handler_bind at 1 in E. simpl in E.
  match type of E with
  | context [?loops ?w3] =>
      pose proof (pass_loops_host_only url
        (Cookie.name <$> Session.cookies session)
        (jar_getAll (visible (host w)) url (jar (host w)))
        (Session.cookies session) w3) as Hloops;
      destruct (loops w3) as [[[]|] w4]
  end; simpl in *; injection E as <- <-; simpl; rewrite Hloops; simpl;
    (split; [done|]; split; [done|]; split; [done|]; right; by eexists).
Qed.

Lemma record_cookies_ids sessionId cookies (l : list Session) :
  Session.id <$> record_cookies sessionId cookies l = Session.id <$> l.
Proof.
  unfold record_cookies. rewrite <- list_fmap_compose.
  apply list_fmap_ext. intros i s _. simpl. by case_bool_decide.
Qed.

Lemma record_cookies_names sessionId cookies (l : list Session) :
  Session.name <$> record_cookies sessionId cookies l = Session.name <$> l.
Proof.
  unfold record_cookies. rewrite <- list_fmap_compose.
  apply list_fmap_ext. intros i s _. simpl. by case_bool_decide.
Qed.

Lemma record_cookies_tabIds sessionId cookies (l : list Session) :
  Session.tabId <$> record_cookies sessionId cookies l = Session.tabId <$> l.
Proof.
  unfold record_cookies. rewrite <- list_fmap_compose.
  apply list_fmap_ext. intros i s _. simpl. by case_bool_decide.
Qed.

Lemma record_cookies_other sessionId cookies (l : list Session) i s :
  l !! i = Some s → Session.id s ≠ sessionId →
  record_cookies sessionId cookies l !! i = Some s.
Proof.
  intros Hi Hne. unfold record_cookies. rewrite list_lookup_fmap, Hi. simpl.
  by rewrite bool_decide_eq_false_2.
Qed.

(** X12: whatever the host answers, a reconciliation pass changes no
    session's id, name or tab id, adds and removes no session, leaves the
    active session id alone, and leaves every session with another id than
    the one it was called for exactly as it was. *)
Theorem handleCookieManagement_frame (w : World) (tabId : Z)
    (sessionId : jstring) :
  let w' := dispatch (λ render, handleCookieManagement render tabId sessionId) w in
  activeSessionId (state w') = activeSessionId (state w)
  ∧ Session.id <$> sessions (state w') = Session.id <$> sessions (state w)
  ∧ Session.name <$> sessions (state w') = Session.name <$> sessions (state w)
  ∧ Session.tabId <$> sessions (state w') = Session.tabId <$> sessions (state w)
  ∧ ∀ i s, sessions (state w) !! i = Some s → Session.id s ≠ sessionId →
           sessions (state w') !! i = Some s.
Proof.
  intros w'.
  destruct (handleCookieManagement_state w tabId sessionId)
    as (Hactive & _ & _ & [Hsame | (cookies & Hrecord)]); fold w' in Hactive |- *.
  - fold w' in Hsame. rewrite Hsame. by split_and!.
  - fold w' in Hrecord. rewrite Hrecord.
    rewrite record_cookies_ids, record_cookies_names, record_cookies_tabIds.
    split_and!; [done..|]. intros i s. apply record_cookies_other.
Qed.

Lemma chrome_cookies_remove_keeps_rejects url name :
  keeps_rejects (chrome_cookies_remove url name).
Proof.
  intros w. unfold chrome_cookies_remove, host_call. simpl.
  by destruct (rejects (host w) _).
Qed.

Lemma for_of_keeps_rejects {A} (l : list A) (body : A → Handler unit) :
  (∀ x, keeps_rejects (body x)) → keeps_rejects (for_of l body).
Proof.
  intros Hbody. induction l as [|x l IH]; intros w; [done|].
  simpl. unfold mbind, Handler_bind.
  specialize (Hbody x w). destruct (body x w) as [[[]|] w1]; simpl in *.
  - by rewrite IH.
  - done.
Qed.

Lemma set_loop_thrown (url : jstring) (l : list Cookie) (w : World) :
  Exists (λ c, rejects (host w) (cookies_set (cookieDetails url c)) = true) l →
  (for_of l (λ cookie, chrome_cookies_set (cookieDetails url cookie)) w).1
    = Thrown.
Proof.
  induction l as [|c l IH] in w |- *; [by intros ?%Exists_nil|].
  intros Hl. cbn [for_of].
  unfold mbind, Handler_bind, chrome_cookies_set at 1, host_call.
  cbn [host rejects with_calls].
  destruct (rejects (host w) (cookies_set (cookieDetails url c))) eqn:Hc;
    [done|].
  apply IH. simpl. apply Exists_cons in Hl as [Hl|Hl]; [congruence|done].
Qed.

(** X13: the pass is not atomic: when the tab lookup and the fetch succeed
    but the host rejects the set call for one of the recorded cookies, the
    pass ends with the cookie-management error and with the session's record
    already replaced by the fetched cookies. *)
Theorem handleCookieManagement_late_failure (w : World) (tabId : Z)
    (sessionId : jstring) (session : Session) (tab : Tab)
    (tab_url url : jstring) :
  find (λ s, Session.id s = sessionId) (sessions (state w)) = Some session →
  find (λ t, Tab.id t = Some tabId) (tabs (host w)) = Some tab →
  Tab.url tab = Some tab_url →
  tab_url ≠ [] →
  href (host w) tab_url = Some url →
  rejects (host w) (tabs_get tabId) = false →
  rejects (host w) (cookies_getAll url) = false →
  Exists (λ c, rejects (host w) (cookies_set (cookieDetails url c)) = true)
         (Session.cookies session) →
  let w' := dispatch (λ render, handleCookieManagement render tabId sessionId) w in
  error (state w') = Some "Error managing cookies. Please check console."
  ∧ sessions (state w')
    = record_cookies sessionId
        (jar_getAll (visible (host w)) url (jar (host w)))
        (sessions (state w)).
Proof.
  intros Hsession Htab Hurl Hne Hhref Hget Hfetch Hset w'. subst w'.
  unfold dispatch, run, handleCookieManagement, try_catch. rewrite Hsession.
  erewrite bind_returned.
  2: { unfold chrome_tabs_get, host_call. simpl. rewrite Hget, Htab. done. }
  simpl. rewrite Hurl. destruct tab_url as [|u tab_url]; [done|]. simpl.
  erewrite bind_returned.
  2: { unfold URL_href. simpl. rewrite Hhref. done. }
  erewrite bind_returned.
  2: { unfold chrome_cookies_getAll, host_call. simpl. rewrite Hfetch. done. }
  erewrite bind_returned; [|done].
  match goal with
  | |- context [(?removals ≫= ?sets) ?w3] =>
      pose proof (pass_loops_host_only url
        (Cookie.name <$> Session.cookies session)
        (jar_getAll (visible (host w)) url (jar (host w)))
        (Session.cookies session) w3) as Hstate;
      assert (((removals ≫= sets) w3).1 = Thrown) as Hthrown
  end.
  { unfold mbind, Handler_bind.
    match goal with
    | |- context [for_of ?l ?body ?w3] =>
        pose proof (for_of_keeps_rejects l body) as Hkeeps;
        destruct (for_of l body w3) as [[[]|] w4] eqn:Hremovals; [|done]
    end.
    apply set_loop_thrown.
    assert (rejects (host w4) = rejects (host w)) as ->; [|done].
    match type of Hremovals with
    | for_of _ _ ?w3 = _ =>
        assert (rejects (host (Returned (), w4).2) = rejects (host w3)) as Hw4
    end; [|exact Hw4].
    rewrite <- Hremovals. apply Hkeeps.
    intros c. destruct (negb _); [apply chrome_cookies_remove_keeps_rejects|done]. }
  match goal with
  | |- context [(?removals ≫= ?sets) ?w3] =>
      destruct ((removals ≫= sets) w3) as [out w4]
  end.
  simpl in Hthrown, Hstate. subst out. simpl. by rewrite Hstate.
Qed.

Lemma handleCookieManagement_late_failure_witness :
  let w' := dispatch (λ render, handleCookieManagement render 7 (js "d"))
                     (dup_world_on no_cookie_set) in
  error (state w') = Some "Error managing cookies. Please check console."
  ∧ sessions (state w') = [Session.with_cookies session_dup sample_jar].
Proof.
  apply (handleCookieManagement_late_failure (dup_world_on no_cookie_set)
           7 (js "d") session_dup
           (Tab.mk (Some 7%Z) (Some (js "https://example.com/")))
           (js "https://example.com/") (js "https://example.com/"));
    try reflexivity; [discriminate|]. by left.
Defined.

Lemma filter_none {A} (P : A → Prop) `{!∀ x, Decision (P x)} (l : list A) :
  (∀ x, ¬ P x) → filter P l = [].
Proof.
  intros Hnone. induction l as [|x l IH]; [done|].
  by rewrite filter_cons_False.
Qed.

(** X14: on a host that accepts every call, a pass for a session that
    records no cookie takes the cookies in the scope of the tab's URL out of
    the jar and into the session's record: the record becomes the fetched
    cookies, a remove call is issued for each of them and no set call, and
    afterwards the jar holds no cookie in the scope of the URL, while the
    cookies out of that scope stay. *)
Theorem handleCookieManagement_absorbs (w : World) (tabId : Z)
    (sessionId : jstring) (session : Session) (tab : Tab)
    (tab_url url : jstring) :
  find (λ s, Session.id s = sessionId) (sessions (state w)) = Some session →
  Session.cookies session = [] →
  find (λ t, Tab.id t = Some tabId) (tabs (host w)) = Some tab →
  Tab.url tab = Some tab_url →
  tab_url ≠ [] →
  href (host w) tab_url = Some url →
  accepts_all (host w) →
  let currentCookies := jar_getAll (visible (host w)) url (jar (host w)) in
  let w' := dispatch (λ render, handleCookieManagement render tabId sessionId) w in
  sessions (state w') = record_cookies sessionId currentCookies (sessions (state w))
  ∧ calls (host w')
    = calls (host w) ++ [tabs_get tabId; cookies_getAll url]
        ++ ((λ c, cookies_remove url (Cookie.name c)) <$> currentCookies)
  ∧ jar (host w') = filter (λ c, ¬ visible (host w) url c) (jar (host w))
  ∧ jar_getAll (visible (host w)) url (jar (host w')) = [].
Proof.
  intros Hsession Hempty Htab Hurl Hne Hhref Haccept current w'. subst w'.
  rewrite (handleCookieManagement_pass w tabId sessionId session
             tab tab_url url) by done.
  rewrite Hempty. simpl. fold current.
  set (fetched := with_calls (host w) _).
  assert (jar (foldl (remove_unknown url []) fetched current)
          = filter (λ c, ¬ visible (host w) url c) (jar (host w))) as Hjar.
  { etransitivity; [apply (removals_jar url [] fetched)|]. simpl.
    apply list_filter_iff. intros c. split.
    - intros Hkeep Hvisible. apply Hkeep. split; [done|]. apply not_elem_of_nil.
    - intros Hout [Hvisible _]. by apply Hout. }
  split; [done|]. split.
  { rewrite removals_calls.
    assert (filter (λ c, Cookie.name c ∉ []) current = current) as ->.
    { clear. induction current as [|c l IH]; [done|].
      rewrite filter_cons_True by apply not_elem_of_nil. by rewrite IH. }
    simpl. by rewrite <- app_assoc. }
  rewrite Hjar. split; [done|].
  unfold jar_getAll. rewrite list_filter_filter.
  apply filter_none. by intros c [? ?].
Qed.

Lemma handleCookieManagement_absorbs_witness :
  let w' := dispatch (λ render, handleCookieManagement render 7 (js "n"))
                     new_session_world in
  sessions (state w') = [session_a; Session.with_cookies session_new sample_jar]
  ∧ calls (host w')
    = [tabs_get 7; cookies_getAll (js "https://example.com/");
       cookies_remove (js "https://example.com/") (js "x");
       cookies_remove (js "https://example.com/") (js "t")]
  ∧ jar (host w') = []
  ∧ jar_getAll (visible (host new_session_world)) (js "https://example.com/")
               (jar (host w')) = [].
Proof.
  apply (handleCookieManagement_absorbs new_session_world 7 (js "n")
           session_new (Tab.mk (Some 7%Z) (Some (js "https://example.com/")))
           (js "https://example.com/") (js "https://example.com/"));
    try reflexivity; [discriminate|]. intros c. reflexivity.
Defined.

(** ** Tab events *)

(** X15: a tab activation, or a tab update of any status, never changes the
    active session id, nor the id, name or tab id of any session, nor any
    session but those with the active id, whatever the host answers; with no
    active session, or for an update whose status is not complete, it changes
    nothing at all and issues no host call. *)
Theorem tab_events_frame (w : World) (tabId : Z) (status_complete : bool) :
  let activated := dispatch (λ render, handleTabActivated render tabId) w in
  let updated :=
    dispatch (λ render, handleTabUpdated render tabId status_complete) w in
  (truthy_id (activeSessionId (state w)) = false →
   activated = w ∧ updated = w)
  ∧ (status_complete = false → updated = w)
  ∧ (status_complete = true → updated = activated)
  ∧ activeSessionId (state activated) = activeSessionId (state w)
  ∧ Session.id <$> sessions (state activated) = Session.id <$> sessions (state w)
  ∧ Session.name <$> sessions (state activated)
    = Session.name <$> sessions (state w)
  ∧ Session.tabId <$> sessions (state activated)
    = Session.tabId <$> sessions (state w)
  ∧ ∀ i s, sessions (state w) !! i = Some s →
           Some (Session.id s) ≠ activeSessionId (state w) →
           sessions (state activated) !! i = Some s.
Proof.
  intros activated updated. subst activated updated.
  unfold dispatch, run, handleTabUpdated, handleTabActivated.
  split.
  { intros Hinactive. destruct status_complete;
      destruct (activeSessionId (state w)) as [[|c id]|]; done. }
  split; [by intros ->|]. split; [by intros ->|].
  destruct (activeSessionId (state w)) as [id|] eqn:Hactive;
    [|by split_and!].
  destruct (truthy_string id); [|by split_and!].
  destruct (handleCookieManagement_state w tabId id)
    as (Hactive' & _ & _ & Hsessions).
  unfold dispatch, run in Hactive', Hsessions. rewrite Hactive in Hactive'.
  split; [done|]. destruct Hsessions as [-> | (cookies & ->)].
  { by split_and!. }
  rewrite record_cookies_ids, record_cookies_names, record_cookies_tabIds.
  split_and!; [done..|]. intros i s Hi Hne.
  apply record_cookies_other; [done|]. congruence.
Qed.

(** ** The tab-created notification *)

Lemma handleTabCreated_cases (w : World) (tab : Tab) :
  let w' := dispatch (λ render, handleTabCreated render tab) w in
  w' = w
  ∨ (truthy_id (activeSessionId (state w)) = true
     ∧ (∃ first,
          find (λ s, Some (Session.id s) = activeSessionId (state w))
               (sessions (state w)) = Some first
          ∧ truthy_number (Session.tabId first) = false)
     ∧ w' = mkWorld
              (mkState
                 ((λ s, if bool_decide (Some (Session.id s)
                                          = activeSessionId (state w))
                        then Session.with_tabId s (Tab.id tab)
                        else s) <$> sessions (state w))
                 (activeSessionId (state w)) (newSessionName (state w))
                 (loading (state w)) (error (state w)))
              (host w)).
Proof.
  intros w'. subst w'. unfold dispatch, run, handleTabCreated.
  destruct (truthy_id (activeSessionId (state w))); [|by left].
  destruct (find _ (sessions (state w))) as [first|]; [|by left].
  destruct (truthy_number (Session.tabId first)) eqn:Htab; [by left|].
  right. split; [done|]. split; [by exists first|]. done.
Qed.

(** X16: the tab-created notification stores the new tab's id in the
    sessions with the active id when the first of them has no tab id (or
    zero) yet, and only then: with no active session, with an active id that
    no session has, or when that session already has a tab id, nothing
    changes.  It never touches the host, the active session id, the cookies,
    names and ids, or a session with another id. *)
Theorem handleTabCreated_assigns (w : World) (tab : Tab) :
  let w' := dispatch (λ render, handleTabCreated render tab) w in
  let found := find (λ s, Some (Session.id s) = activeSessionId (state w))
                    (sessions (state w)) in
  (∀ first,
     truthy_id (activeSessionId (state w)) = true →
     found = Some first →
     truthy_number (Session.tabId first) = false →
     sessions (state w')
       = (λ s, if bool_decide (Some (Session.id s) = activeSessionId (state w))
               then Session.with_tabId s (Tab.id tab)
               else s) <$> sessions (state w))
  ∧ (truthy_id (activeSessionId (state w)) = false
     ∨ found = None
     ∨ (∃ first, found = Some first
                 ∧ truthy_number (Session.tabId first) = true) →
     w' = w)
  ∧ host w' = host w
  ∧ activeSessionId (state w') = activeSessionId (state w)
  ∧ Session.id <$> sessions (state w') = Session.id <$> sessions (state w)
  ∧ Session.name <$> sessions (state w') = Session.name <$> sessions (state w)
  ∧ Session.cookies <$> sessions (state w')
    = Session.cookies <$> sessions (state w)
  ∧ ∀ i s, sessions (state w) !! i = Some s →
           Some (Session.id s) ≠ activeSessionId (state w) →
           sessions (state w') !! i = Some s.
Proof.
  intros w' found. split; [|split].
  - intros first Hactive Hfind Htab. subst w' found.
    unfold dispatch, run, handleTabCreated. by rewrite Hactive, Hfind, Htab.
  - intros Hnone. subst w' found. unfold dispatch, run, handleTabCreated.
    destruct (truthy_id (activeSessionId (state w))); [|by destruct w].
    destruct Hnone as [? | [-> | (first & -> & ->)]];
      [done|by destruct w..].
  - subst w'. destruct (handleTabCreated_cases w tab) as [-> | (_ & _ & ->)];
      [by split_and!|]. simpl.
    rewrite <- !list_fmap_compose.
    split_and!; [done|done|..].
    + apply list_fmap_ext. intros i s _. simpl. by case_bool_decide.
    + apply list_fmap_ext. intros i s _. simpl. by case_bool_decide.
    + apply list_fmap_ext. intros i s _. simpl. by case_bool_decide.
    + intros i s Hi Hne. rewrite list_lookup_fmap, Hi. simpl.
      by rewrite bool_decide_eq_false_2.
Qed.

(** X17: after [createSession] has appended a session whose tab has an id
    that is set and not zero, a tab-created notification, for whatever tab,
    changes nothing: the id of the created tab stays with the session. *)
Theorem createSession_then_handleTabCreated (w : World) (name : jstring)
    (tab : Tab) :
  valid_name (state w) name →
  rejects (host w) tabs_create = false →
  truthy_number (Tab.id (new_tab (host w))) = true →
  let w1 := dispatch (λ render, createSession render name) w in
  dispatch (λ render, handleTabCreated render tab) w1 = w1.
Proof.
  intros Hvalid Haccept Htab w1.
  destruct (handleTabCreated_cases w1 tab)
    as [Hsame | (_ & (first & Hfind & Hnone) & _)]; [done|].
  exfalso. apply find_Some in Hfind as [Hin Hid].
  subst w1. rewrite createSession_tab_created in Hin, Hid by done.
  simpl in Hin, Hid. injection Hid as Hid.
  apply list_elem_of_fmap in Hin as (s & -> & _).
  case_bool_decide as Hs; simpl in *; congruence.
Qed.

Lemma createSession_then_handleTabCreated_witness :
  let w1 := dispatch (λ render, createSession render (js "Carol"))
                     two_sessions_world in
  dispatch (λ render, handleTabCreated render (Tab.mk (Some 9%Z) None)) w1 = w1.
Proof.
  apply (createSession_then_handleTabCreated two_sessions_world (js "Carol")).
  - split; [done|]. split; [vm_compute; lia|]. by_evaluation.
  - reflexivity.
  - reflexivity.
Defined.

(** ** More on cookie-change notifications *)

(** The whole effect of a notification. *)
Lemma handleCookieChanged_world (w : World) (changeInfo : OnChangedInfo) :
  dispatch (λ render, handleCookieChanged render changeInfo) w
    = mkWorld
        (mkState
           (if truthy_id (activeSessionId (state w))
            then (λ session,
                    Session.with_cookies session
                      (changed_cookies changeInfo (Session.cookies session)))
                   <$> sessions (state w)
            else sessions (state w))
           (activeSessionId (state w)) (newSessionName (state w))
           (loading (state w)) (error (state w)))
        (host w).
Proof.
  unfold dispatch, run, handleCookieChanged, changed_cookies.
  destruct (OnChangedInfo.removed changeInfo);
    destruct (truthy_id (activeSessionId (state w))); simpl;
    rewrite ?list_fmap_id; try reflexivity.
  apply (f_equal (λ l, mkWorld (mkState l _ _ _ _) _)).
  apply list_fmap_ext. intros i s _. unfold with_cookie. simpl.
  by case_bool_decide.
Qed.

(** A list either has no cookie of a name, or splits at the first one. *)
Lemma first_named (n : jstring) (l : list Cookie) :
  (∀ c, c ∈ l → Cookie.name c ≠ n)
  ∨ ∃ before c after,
      l = before ++ c :: after ∧ Cookie.name c = n
      ∧ ∀ c', c' ∈ before → Cookie.name c' ≠ n.
Proof.
  induction l as [|x l IH]; [left; by intros c ?%not_elem_of_nil|].
  destruct (decide (Cookie.name x = n)) as [Hx|Hx].
  { right. exists [], x, l. split; [done|]. split; [done|].
    by intros c ?%not_elem_of_nil. }
  destruct IH as [Hnone | (before & c & after & -> & Hc & Hbefore)].
  - left. intros c [->|Hc]%elem_of_cons; [done|by apply Hnone].
  - right. exists (x :: before), c, after. split; [done|]. split; [done|].
    intros c' [->|Hc']%elem_of_cons; [done|by apply Hbefore].
Qed.

Lemma with_cookie_absent (cookie : Cookie) (l : list Cookie) :
  (∀ c, c ∈ l → Cookie.name c ≠ Cookie.name cookie) →
  with_cookie cookie l = l ++ [cookie].
Proof.
  intros Hnone. unfold with_cookie. rewrite findIndex_absent by done.
  by rewrite bool_decide_eq_false_2 by lia.
Qed.

Lemma with_cookie_present (cookie : Cookie) before c after :
  Cookie.name c = Cookie.name cookie →
  (∀ c', c' ∈ before → Cookie.name c' ≠ Cookie.name cookie) →
  with_cookie cookie (before ++ c :: after) = before ++ cookie :: after.
Proof.
  intros Hc Hbefore. unfold with_cookie. rewrite findIndex_first by done.
  rewrite bool_decide_eq_true_2 by lia. rewrite Nat2Z.id.
  replace (length before) with (length before + 0) at 1 by lia.
  by rewrite insert_app_r.
Qed.

Lemma without_cookie_absent (cookie : Cookie) (l : list Cookie) :
  (∀ c, c ∈ l → Cookie.name c ≠ Cookie.name cookie) →
  without_cookie cookie l = l.
Proof.
  intros Hnone. unfold without_cookie. induction l as [|x l IH]; [done|].
  rewrite filter_cons_True by (apply Hnone; by left).
  rewrite IH; [done|]. intros c Hc. apply Hnone. by right.
Qed.

Lemma without_cookie_none (cookie : Cookie) (l : list Cookie) c :
  c ∈ without_cookie cookie l → Cookie.name c ≠ Cookie.name cookie.
Proof. by intros [? _]%list_elem_of_filter. Qed.

(** The names a list records after each update. *)
Lemma with_cookie_names (cookie : Cookie) (l : list Cookie) :
  Cookie.name <$> with_cookie cookie l
    = if bool_decide (Cookie.name cookie ∈ Cookie.name <$> l)
      then Cookie.name <$> l
      else (Cookie.name <$> l) ++ [Cookie.name cookie].
Proof.
  destruct (first_named (Cookie.name cookie) l)
    as [Hnone | (before & c & after & -> & Hc & Hbefore)].
  - rewrite with_cookie_absent by done.
    rewrite bool_decide_eq_false_2; [by rewrite fmap_app|].
    intros (c & Heq & Hin)%list_elem_of_fmap. by apply (Hnone c).
  - rewrite with_cookie_present by done.
    rewrite bool_decide_eq_true_2.
    + rewrite !fmap_app, !fmap_cons. by rewrite Hc.
    + apply list_elem_of_fmap. exists c. split; [done|].
      apply elem_of_app. right. by left.
Qed.

Lemma changed_cookies_NoDup (changeInfo : OnChangedInfo) (l : list Cookie) :
  NoDup (Cookie.name <$> l) →
  NoDup (Cookie.name <$> changed_cookies changeInfo l).
Proof.
  intros Hl. unfold changed_cookies.
  destruct (OnChangedInfo.removed changeInfo).
  - eapply sublist_NoDup; [done|]. apply fmap_sublist, sublist_filter.
  - rewrite with_cookie_names. case_bool_decide as Hin; [done|].
    apply NoDup_app. split; [done|]. split; [|apply NoDup_singleton].
    by intros n Hn ->%list_elem_of_singleton.
Qed.

(** X18: when the cookies of every session have pairwise different names,
    they still have after a cookie-change notification, of either kind. *)
Theorem handleCookieChanged_cookie_names_unique
    (w : World) (changeInfo : OnChangedInfo) :
  cookie_names_unique (state w) →
  cookie_names_unique
    (state (dispatch (λ render, handleCookieChanged render changeInfo) w)).
Proof.
  intros Hunique s. rewrite handleCookieChanged_world. simpl.
  destruct (truthy_id (activeSessionId (state w))); [|apply Hunique].
  intros (s0 & -> & Hs0)%list_elem_of_fmap. simpl.
  by apply changed_cookies_NoDup, Hunique.
Qed.

Lemma two_sessions_cookie_names_unique :
  cookie_names_unique (state two_sessions_world).
Proof.
  intros s Hs. simpl in Hs.
  apply elem_of_cons in Hs as [-> | Hs];
    [|apply list_elem_of_singleton in Hs as ->]; by_evaluation.
Qed.

Lemma handleCookieChanged_cookie_names_unique_witness :
  cookie_names_unique
    (state (dispatch (λ render,
              handleCookieChanged render
                (OnChangedInfo.mk false (sample_cookie "y" "5" "/app")))
              two_sessions_world)).
Proof.
  apply (handleCookieChanged_cookie_names_unique two_sessions_world).
  apply two_sessions_cookie_names_unique.
Defined.

Lemma changed_cookies_idempotent (changeInfo : OnChangedInfo) (l : list Cookie) :
  changed_cookies changeInfo (changed_cookies changeInfo l)
    = changed_cookies changeInfo l.
Proof.
  unfold changed_cookies. destruct (OnChangedInfo.removed changeInfo).
  - apply without_cookie_absent. intros c. apply without_cookie_none.
  - set (cookie := OnChangedInfo.cookie changeInfo).
    destruct (first_named (Cookie.name cookie) l)
      as [Hnone | (before & c & after & -> & Hc & Hbefore)].
    + rewrite (with_cookie_absent cookie l) by done.
      by rewrite (with_cookie_present cookie l cookie []).
    + rewrite (with_cookie_present cookie before c after) by done.
      by rewrite with_cookie_present.
Qed.

Lemma without_with_cookie (removed cookie : Cookie) (l : list Cookie) :
  Cookie.name removed = Cookie.name cookie →
  without_cookie removed (with_cookie cookie l) = without_cookie removed l.
Proof.
  intros Hname. unfold without_cookie. rewrite Hname.
  destruct (first_named (Cookie.name cookie) l)
    as [Hnone | (before & c & after & -> & Hc & Hbefore)].
  - rewrite with_cookie_absent by done. rewrite filter_app.
    rewrite filter_cons_False by (intros Hne; by apply Hne).
    by rewrite filter_nil, app_nil_r.
  - rewrite with_cookie_present by done. rewrite !filter_app.
    rewrite !filter_cons_False; [done|..]; intros Hne; by apply Hne.
Qed.

Lemma with_without_cookie (removed cookie : Cookie) (l : list Cookie) :
  Cookie.name removed = Cookie.name cookie →
  with_cookie cookie (without_cookie removed l)
    = without_cookie removed l ++ [cookie].
Proof.
  intros Hname. apply with_cookie_absent. intros c Hc.
  rewrite <- Hname. by eapply without_cookie_none.
Qed.

Lemma fmap_with_cookies_compose (f g : list Cookie → list Cookie)
    (l : list Session) :
  (λ s, Session.with_cookies s (f (Session.cookies s)))
    <$> ((λ s, Session.with_cookies s (g (Session.cookies s))) <$> l)
  = (λ s, Session.with_cookies s (f (g (Session.cookies s)))) <$> l.
Proof. rewrite <- list_fmap_compose. by apply list_fmap_ext. Qed.

Lemma fmap_with_cookies_ext (f g : list Cookie → list Cookie)
    (l : list Session) :
  (∀ cookies, f cookies = g cookies) →
  (λ s, Session.with_cookies s (f (Session.cookies s))) <$> l
  = (λ s, Session.with_cookies s (g (Session.cookies s))) <$> l.
Proof. intros Hfg. apply list_fmap_ext. intros i s _. simpl. by rewrite Hfg. Qed.

(** X19: a cookie-change notification delivered twice leaves the sessions as
    it does delivered once: removing a name again removes nothing, and
    setting a cookie again puts it where it already is. *)
Theorem handleCookieChanged_idempotent (w : World) (changeInfo : OnChangedInfo) :
  let w1 := dispatch (λ render, handleCookieChanged render changeInfo) w in
  dispatch (λ render, handleCookieChanged render changeInfo) w1 = w1.
Proof.
  intros w1. subst w1. rewrite !handleCookieChanged_world. simpl.
  destruct (truthy_id (activeSessionId (state w))); [|done].
  rewrite fmap_with_cookies_compose.
  apply (f_equal (λ l, mkWorld (mkState l _ _ _ _) _)).
  apply (fmap_with_cookies_ext
           (λ l, changed_cookies changeInfo (changed_cookies changeInfo l))
           (changed_cookies changeInfo)).
  apply changed_cookies_idempotent.
Qed.

(** X20: for a removal and a set notification about cookies of one name: a
    removal after the set leaves the sessions as the removal alone does, and
    a set after the removal leaves, in every session while one is active,
    the cookies of other names followed by the notification's cookie. *)
Theorem handleCookieChanged_set_and_removal
    (w : World) (removed cookie : Cookie) :
  Cookie.name removed = Cookie.name cookie →
  let removal := OnChangedInfo.mk true removed in
  let addition := OnChangedInfo.mk false cookie in
  dispatch (λ render, handleCookieChanged render removal)
           (dispatch (λ render, handleCookieChanged render addition) w)
    = dispatch (λ render, handleCookieChanged render removal) w
  ∧ (truthy_id (activeSessionId (state w)) = true →
     sessions (state
       (dispatch (λ render, handleCookieChanged render addition)
          (dispatch (λ render, handleCookieChanged render removal) w)))
       = (λ s, Session.with_cookies s
                 (without_cookie removed (Session.cookies s) ++ [cookie]))
           <$> sessions (state w)).
Proof.
  intros Hname removal addition. rewrite !handleCookieChanged_world. simpl.
  destruct (truthy_id (activeSessionId (state w))); [|done]. split.
  - rewrite fmap_with_cookies_compose.
    apply (f_equal (λ l, mkWorld (mkState l _ _ _ _) _)).
    apply (fmap_with_cookies_ext
             (λ l, changed_cookies removal (changed_cookies addition l))
             (changed_cookies removal)).
    intros cookies. by apply without_with_cookie.
  - intros _. rewrite fmap_with_cookies_compose.
    apply (fmap_with_cookies_ext
             (λ l, changed_cookies addition (changed_cookies removal l))
             (λ l, without_cookie removed l ++ [cookie])).
    intros cookies. by apply with_without_cookie.
Qed.

Lemma handleCookieChanged_set_and_removal_witness :
  let removal := OnChangedInfo.mk true (sample_cookie "x" "0" "/other") in
  let addition := OnChangedInfo.mk false (sample_cookie "x" "9" "/app") in
  dispatch (λ render, handleCookieChanged render removal)
           (dispatch (λ render, handleCookieChanged render addition)
                     two_sessions_world)
    = dispatch (λ render, handleCookieChanged render removal) two_sessions_world
  ∧ sessions (state
      (dispatch (λ render, handleCookieChanged render addition)
         (dispatch (λ render, handleCookieChanged render removal)
                   two_sessions_world)))
    = [ Session.with_cookies session_a [sample_cookie "x" "9" "/app"];
        Session.with_cookies session_b
          [sample_cookie "y" "2" "/"; sample_cookie "x" "9" "/app"] ].
Proof.
  destruct (handleCookieChanged_set_and_removal two_sessions_world
              (sample_cookie "x" "0" "/other") (sample_cookie "x" "9" "/app")
              eq_refl) as [Hremoval Hset].
  split; [exact Hremoval|]. exact (Hset eq_refl).
Defined.

(** X21: a cookie-change notification never calls the host and never
    changes the active session id, the number of sessions, or the id, name
    and tab id of a session; with no active session it changes nothing. *)
Theorem handleCookieChanged_frame (w : World) (changeInfo : OnChangedInfo) :
  let w' := dispatch (λ render, handleCookieChanged render changeInfo) w in
  host w' = host w
  ∧ activeSessionId (state w') = activeSessionId (state w)
  ∧ error (state w') = error (state w)
  ∧ Session.id <$> sessions (state w') = Session.id <$> sessions (state w)
  ∧ Session.name <$> sessions (state w') = Session.name <$> sessions (state w)
  ∧ Session.tabId <$> sessions (state w') = Session.tabId <$> sessions (state w)
  ∧ (truthy_id (activeSessionId (state w)) = false → w' = w).
Proof.
  intros w'. subst w'. rewrite handleCookieChanged_world. simpl.
  destruct (truthy_id (activeSessionId (state w))).
  - rewrite <- !list_fmap_compose. by split_and!.
  - split_and!; try done. intros _. by destruct w as [[] ?].
Qed.

(** ** More on the startup load and the save effect *)

Lemma loadSessions_host (w : World) :
  host (run loadSessions w)
    = with_calls (host w) (calls (host w) ++ [storage_get]).
Proof.
  unfold run, loadSessions.
  unfold mbind, Handler_bind, try_catch, chrome_storage_local_get, host_call.
  simpl. destruct (rejects (host w) storage_get); simpl; [done|].
  destruct (truthy _ && isArray _); simpl; [|done].
  by case_bool_decide.
Qed.

Lemma loadSessions_loading (w : World) :
  loading (state (run loadSessions w)) = false.
Proof.
  destruct (rejects (host w) storage_get) eqn:Hget.
  - by rewrite loadSessions_rejected.
  - rewrite loadSessions_accepted by done. simpl.
    by destruct (truthy _ && isArray _).
Qed.

(** X22: the startup load always ends the loading phase, issues the one
    storage read and never writes the storage.  When the read is rejected it
    sets the load error and keeps sessions and active session; when nothing
    is stored it sets an empty session list and keeps the active session id;
    when the stored value is not an array it keeps sessions and active
    session and sets no error. *)
Theorem loadSessions_outcomes (w : World) :
  let w' := run loadSessions w in
  loading (state w') = false
  ∧ calls (host w') = calls (host w) ++ [storage_get]
  ∧ storage (host w') = storage (host w)
  ∧ (rejects (host w) storage_get = true →
     error (state w') = Some "Failed to load sessions. Please check console."
     ∧ sessions (state w') = sessions (state w)
     ∧ activeSessionId (state w') = activeSessionId (state w))
  ∧ (rejects (host w) storage_get = false →
     storage (host w) = None →
     sessions (state w') = []
     ∧ activeSessionId (state w') = activeSessionId (state w)
     ∧ error (state w') = error (state w))
  ∧ (rejects (host w) storage_get = false →
     ∀ v, storage (host w) = Some v → isArray v = false →
       sessions (state w') = sessions (state w)
       ∧ activeSessionId (state w') = activeSessionId (state w)
       ∧ error (state w') = error (state w)).
Proof.
  intros w'. subst w'.
  split; [apply loadSessions_loading|]. rewrite loadSessions_host. simpl.
  split; [done|]. split; [done|]. split; [|split].
  - intros Hget. by rewrite loadSessions_rejected.
  - intros Hget Hnone. rewrite loadSessions_accepted by done.
    by rewrite Hnone.
  - intros Hget v Hv Harray. rewrite loadSessions_accepted by done.
    rewrite Hv. simpl. rewrite Harray, andb_false_r. done.
Qed.

Lemma saveSessions_cases (w : World) :
  let w' := dispatch saveSessions w in
  let items := VArray (session_to_value <$> sessions (state w)) in
  (loading (state w) = true ∧ w' = w)
  ∨ (loading (state w) = false
     ∧ rejects (host w) (storage_set items) = false
     ∧ w' = mkWorld (state w)
              (with_storage
                 (with_calls (host w) (calls (host w) ++ [storage_set items]))
                 (Some items)))
  ∨ (loading (state w) = false
     ∧ rejects (host w) (storage_set items) = true
     ∧ w' = mkWorld
              (mkState (sessions (state w)) (activeSessionId (state w))
                       (newSessionName (state w)) (loading (state w))
                       (Some "Failed to save sessions. Please check console."))
              (with_calls (host w) (calls (host w) ++ [storage_set items]))).
Proof.
  intros w' items. subst w'. unfold dispatch, run, saveSessions.
  destruct (loading (state w)) eqn:Hloading; simpl; [by left|right].
  unfold try_catch, chrome_storage_local_set, host_call. simpl. fold items.
  destruct (rejects (host w) (storage_set items)); [right|left];
    (split_and!; [done..|]); simpl; by rewrite ?Hloading.
Qed.

(** X23: the save effect never changes the sessions or the active session
    id.  While the component is loading it does nothing at all; afterwards
    it issues one storage write of the whole list: accepted, the storage
    holds the list and the error is as before; rejected, the storage is as
    before and the save error is set. *)
Theorem saveSessions_outcomes (w : World) :
  let w' := dispatch saveSessions w in
  let items := VArray (session_to_value <$> sessions (state w)) in
  sessions (state w') = sessions (state w)
  ∧ activeSessionId (state w') = activeSessionId (state w)
  ∧ (loading (state w) = true → w' = w)
  ∧ (loading (state w) = false →
     calls (host w') = calls (host w) ++ [storage_set items])
  ∧ (loading (state w) = false →
     rejects (host w) (storage_set items) = false →
     storage (host w') = Some items ∧ error (state w') = error (state w))
  ∧ (loading (state w) = false →
     rejects (host w) (storage_set items) = true →
     storage (host w') = storage (host w)
     ∧ error (state w')
       = Some "Failed to save sessions. Please check console.").
Proof.
  intros w' items.
  subst w' items.
  destruct (saveSessions_cases w)
    as [[Hloading ->] | [(Hloading & Hset & ->) | (Hloading & Hset & ->)]];
    simpl; split_and!; try done; intros; congruence.
Qed.



(** ** What the popup shows *)

Lemma marked_rows_none (st : State) (l : list Session) :
  (∀ s, s ∈ l → activeSessionId st ≠ Some (Session.id s)) →
  filter (λ row, row.2 = true) (session_row st <$> l) = [].
Proof.
  intros Hnone. induction l as [|s l IH]; [done|]. rewrite fmap_cons.
  rewrite filter_cons_False.
  - apply IH. intros s' Hs'. apply Hnone. by right.
  - simpl. rewrite bool_decide_eq_false_2; [done|]. apply Hnone. by left.
Qed.

Lemma marked_rows_one (st : State) (l : list Session) (id : jstring) :
  NoDup (Session.id <$> l) →
  activeSessionId st = Some id →
  id ∈ Session.id <$> l →
  length (filter (λ row, row.2 = true) (session_row st <$> l)) = 1.
Proof.
  intros Hunique Hactive. induction l as [|s l IH]; [by intros ?%not_elem_of_nil|].
  rewrite fmap_cons in Hunique. apply NoDup_cons in Hunique as [Hs Hl].
  rewrite !fmap_cons. destruct (decide (Session.id s = id)) as [<-|Hne].
  - intros _. rewrite filter_cons_True.
    2: { simpl. by rewrite bool_decide_eq_true_2. }
    rewrite marked_rows_none; [done|].
    intros s' Hs' Heq. rewrite Hactive in Heq. injection Heq as Heq.
    apply Hs. rewrite Heq. apply list_elem_of_fmap. eauto.
  - intros [Heq|Hin]%elem_of_cons; [done|].
    rewrite filter_cons_False.
    2: { simpl. rewrite bool_decide_eq_false_2; [done|]. congruence. }
    by apply IH.
Qed.

(** X25: when the session ids are pairwise different, the list shows at
    most one row as active: exactly one when the active session id is the id
    of a session, none when it is not or when no session is active. *)
Theorem view_marks_one_row (st : State) :
  ids_unique st →
  let marked := filter (λ row, row.2 = true) (session_row st <$> sessions st) in
  length marked ≤ 1
  ∧ (∀ id, activeSessionId st = Some id →
           id ∈ Session.id <$> sessions st → length marked = 1)
  ∧ (∀ id, activeSessionId st = Some id →
           id ∉ Session.id <$> sessions st → marked = [])
  ∧ (activeSessionId st = None → marked = []).
Proof.
  intros Hunique marked.
  assert (∀ id, activeSessionId st = Some id →
                id ∉ Session.id <$> sessions st → marked = []) as Habsent.
  { intros id Hactive Hout. apply marked_rows_none. intros s Hs Heq.
    apply Hout. rewrite Hactive in Heq. injection Heq as ->.
    apply list_elem_of_fmap. eauto. }
  assert (activeSessionId st = None → marked = []) as Hnone.
  { intros Hactive. apply marked_rows_none. intros s _. by rewrite Hactive. }
  assert (∀ id, activeSessionId st = Some id →
                id ∈ Session.id <$> sessions st → length marked = 1) as Hone.
  { intros id Hactive Hin. by eapply marked_rows_one. }
  split; [|done].
  destruct (activeSessionId st) as [id|] eqn:Hactive.
  - destruct (decide (id ∈ Session.id <$> sessions st)) as [Hin|Hout].
    + rewrite (Hone id); [lia|done..].
    + rewrite (Habsent id); [simpl; lia|done..].
  - rewrite Hnone; [simpl; lia|done].
Qed.

Lemma view_marks_one_row_witness :
  length (filter (λ row, row.2 = true)
                 (session_row two_sessions <$> sessions two_sessions)) = 1.
Proof.
  destruct (view_marks_one_row two_sessions) as (_ & Hone & _).
  { by_evaluation. }
  apply (Hone (js "a")); [reflexivity|by_evaluation].
Defined.

(** X26: a click on a row of the list makes the session of that row the
    active one and changes nothing else: the sessions, the input, the
    loading flag, the error and the host are as before; afterwards the
    active session id is the id of a session of the list.  A click where the
    list has no row changes nothing. *)
Theorem onRowClick_switches (w : World) (row : nat) :
  let w' := dispatch (λ render, onRowClick render row) w in
  (∀ session, sessions (state w) !! row = Some session →
     w' = mkWorld
            (mkState (sessions (state w)) (Some (Session.id session))
                     (newSessionName (state w)) (loading (state w))
                     (error (state w)))
            (host w)
     ∧ activeSessionId (state w') = Some (Session.id session)
     ∧ active_exists (state w'))
  ∧ (sessions (state w) !! row = None → w' = w)
  ∧ sessions (state w') = sessions (state w)
  ∧ newSessionName (state w') = newSessionName (state w)
  ∧ loading (state w') = loading (state w)
  ∧ error (state w') = error (state w)
  ∧ host w' = host w.
Proof.
  intros w'. subst w'. unfold dispatch, run, onRowClick.
  destruct (sessions (state w) !! row) as [session|] eqn:Hrow; simpl.
  - split_and!; try done. intros ? [= <-]. split; [done|]. split; [done|].
    intros id. simpl. intros [= <-].
    apply list_elem_of_fmap. exists session. split; [done|].
    by eapply list_elem_of_lookup_2.
  - by split_and!.
Qed.

Lemma find_active_app_fresh (l : list Session) (new : Session) :
  Session.id new ∉ Session.id <$> l →
  find (λ s, Some (Session.id s) = Some (Session.id new)) (l ++ [new])
    = Some new.
Proof.
  induction l as [|s l IH]; simpl.
  { intros _. unfold find. simpl. by rewrite decide_True. }
  rewrite not_elem_of_cons. intros [Hs Hl]. specialize (IH Hl).
  unfold find in *. simpl. rewrite decide_False by congruence.
  destruct (list_find _ (l ++ [new])) as [[i x]|]; simpl in *; done.
Qed.

(** X27: once loaded, after [createSession] has appended a session (valid
    name, tab created, new non-empty id) the popup shows the New Session
    button disabled, since the input is empty again, no error and no hint of
    an empty list; the last row shows the trimmed name in full and is marked
    active, and the settings panel names the new session as the active one. *)
Theorem view_after_createSession (w : World) (name : jstring) :
  loading (state w) = false →
  valid_name (state w) name →
  rejects (host w) tabs_create = false →
  new_uuid (host w) ∉ Session.id <$> sessions (state w) →
  new_uuid (host w) ≠ [] →
  let w' := dispatch (λ render, createSession render name) w in
  view (state w')
    = MainView true None false
               (session_row (state w') <$> sessions (state w'))
               (Some (trim name))
  ∧ last (session_row (state w') <$> sessions (state w'))
    = Some (trim name, true).
Proof.
  intros Hloaded Hvalid Haccept Hfresh Hid w'.
  assert (state w'
          = mkState (sessions (state w)
                       ++ [Session.mk (new_uuid (host w)) (trim name)
                                      (Tab.id (new_tab (host w))) []])
                    (Some (new_uuid (host w))) [] false None) as ->.
  { subst w'. rewrite createSession_tab_created by done. simpl.
    rewrite fmap_app, fmap_fresh_id by done. simpl.
    by rewrite bool_decide_eq_true_2, Hloaded. }
  destruct (valid_name_well_formed _ _ Hvalid) as (Hne & _ & Hlen).
  split.
  - unfold view. simpl. rewrite length_app. simpl.
    rewrite bool_decide_eq_false_2 by lia. simpl.
    destruct (new_uuid (host w)) as [|c id] eqn:Huuid; [done|]. simpl.
    apply (f_equal (λ x, MainView _ _ _ _ (Some x))).
    unfold active_session_name. simpl.
    rewrite (find_active_app_fresh _
               (Session.mk (c :: id) (trim name)
                           (Tab.id (new_tab (host w))) [])) by done.
    simpl. by destruct (trim name).
  - simpl. rewrite fmap_app. simpl. rewrite last_snoc. unfold session_row. simpl.
    by rewrite truncateString_short, bool_decide_eq_true_2.
Qed.

Lemma view_after_createSession_witness :
  let w' := dispatch (λ render, createSession render (js " Carol "))
                     two_sessions_world in
  view (state w')
    = MainView true None false
               (session_row (state w') <$> sessions (state w'))
               (Some (js "Carol"))
  ∧ last (session_row (state w') <$> sessions (state w'))
    = Some (js "Carol", true).
Proof.
  apply (view_after_createSession two_sessions_world (js " Carol ")).
  - reflexivity.
  - split; [done|]. split; [vm_compute; lia|]. by_evaluation.
  - reflexivity.
  - by_evaluation.
  - discriminate.
Defined.

(** ** Invariants under the other callbacks *)

Lemma active_exists_same_ids (st st' : State) :
  activeSessionId st' = activeSessionId st →
  Session.id <$> sessions st' = Session.id <$> sessions st →
  active_exists st → active_exists st'.
Proof.
  unfold active_exists. intros -> ->. done.
Qed.

Lemma handleCookieManagement_active_exists (w : World) (tabId : Z)
    (sessionId : jstring) :
  active_exists (state w) →
  active_exists
    (state (dispatch (λ render, handleCookieManagement render tabId sessionId) w)).
Proof.
  intros Hinv.
  destruct (handleCookieManagement_state w tabId sessionId)
    as (Hactive & _ & _ & Hsessions).
  apply (active_exists_same_ids (state w)); [exact Hactive| |exact Hinv].
  destruct Hsessions as [-> | (cookies & ->)]; [done|].
  apply record_cookies_ids.
Qed.

(** X28: the callbacks that neither create nor delete nor select a session
    keep the active session id a reference to a session of the list: the
    cookie-change notification, the reconciliation pass, the tab
    activation, the tab-created notification and the save effect, whatever
    the host answers. *)
Theorem active_exists_kept (w : World) (changeInfo : OnChangedInfo)
    (tabId : Z) (sessionId : jstring) (tab : Tab) :
  active_exists (state w) →
  active_exists
    (state (dispatch (λ render, handleCookieChanged render changeInfo) w))
  ∧ active_exists
      (state (dispatch (λ render,
                handleCookieManagement render tabId sessionId) w))
  ∧ active_exists
      (state (dispatch (λ render, handleTabActivated render tabId) w))
  ∧ active_exists
      (state (dispatch (λ render, handleTabCreated render tab) w))
  ∧ active_exists (state (dispatch saveSessions w)).
Proof.
  intros Hinv. split_and!.
  - rewrite handleCookieChanged_world. simpl.
    apply (active_exists_same_ids (state w)); [done| |exact Hinv]. simpl.
    destruct (truthy_id _); [|done]. by rewrite <- list_fmap_compose.
  - by apply handleCookieManagement_active_exists.
  - pose proof (handleCookieManagement_active_exists w tabId) as Hpass.
    unfold dispatch, run, handleTabActivated in *.
    destruct (activeSessionId (state w)) as [id|] eqn:Hactive; [|done].
    destruct (truthy_string id); [|done]. by apply Hpass.
  - destruct (handleTabCreated_cases w tab) as [-> | (_ & _ & ->)]; [done|].
    apply (active_exists_same_ids (state w)); [done| |exact Hinv]. simpl.
    rewrite <- list_fmap_compose. apply list_fmap_ext.
    intros i s _. simpl. by case_bool_decide.
  - destruct (saveSessions_cases w)
      as [[_ ->] | [(_ & _ & ->) | (_ & _ & ->)]]; done.
Qed.

Lemma active_exists_kept_witness :
  active_exists
    (state (dispatch (λ render,
              handleCookieChanged render
                (OnChangedInfo.mk true (sample_cookie "x" "1" "/")))
              reconcile_world))
  ∧ active_exists
      (state (dispatch (λ render, handleCookieManagement render 7 (js "b"))
                       reconcile_world))
  ∧ active_exists
      (state (dispatch (λ render, handleTabActivated render 7) reconcile_world))
  ∧ active_exists
      (state (dispatch (λ render,
                handleTabCreated render (Tab.mk (Some 9%Z) None))
                reconcile_world))
  ∧ active_exists (state (dispatch saveSessions reconcile_world)).
Proof.
  apply (active_exists_kept reconcile_world).
  intros id. simpl. intros [= <-]. by_evaluation.
Defined.

Lemma createSession_ids (w : World) (name : jstring) :
  let w' := dispatch (λ render, createSession render name) w in
  Session.id <$> sessions (state w') = Session.id <$> sessions (state w)
  ∨ Session.id <$> sessions (state w')
    = (Session.id <$> sessions (state w)) ++ [new_uuid (host w)]
  ∨ sessions (state w')
    = filter (λ s, Session.id s ≠ new_uuid (host w))
             (sessions (state w)
                ++ [Session.mk (new_uuid (host w)) (trim name) None []]).
Proof.
  intros w'. subst w'.
  destruct (decide (valid_name (state w) name)) as [Hvalid|Hbad].
  - destruct (rejects (host w) tabs_create) eqn:Htab.
    + right; right. by rewrite createSession_tab_failed by done.
    + right; left. rewrite createSession_tab_created by done. simpl.
      rewrite <- list_fmap_compose, fmap_app. f_equal.
      * apply list_fmap_ext. intros i s _. simpl. by case_bool_decide.
      * simpl. by case_bool_decide.
  - left. by destruct (createSession_checks_fail w name Hbad) as (msg & _ & ->).
Qed.

(** X29: when the session ids are pairwise different they stay so after
    [createSession], provided the generated id is new, and after
    [deleteSession], whatever the host answers. *)
Theorem ids_unique_kept (w : World) (name id : jstring) :
  ids_unique (state w) →
  (new_uuid (host w) ∉ Session.id <$> sessions (state w) →
   ids_unique (state (dispatch (λ render, createSession render name) w)))
  ∧ ids_unique (state (dispatch (λ render, deleteSession render id) w)).
Proof.
  unfold ids_unique. intros Hunique. split.
  - intros Hfresh.
    assert (NoDup ((Session.id <$> sessions (state w)) ++ [new_uuid (host w)]))
      as Hnew.
    { apply NoDup_app. split; [done|]. split; [|apply NoDup_singleton].
      by intros i Hi ->%list_elem_of_singleton. }
    destruct (createSession_ids w name) as [-> | [-> | ->]]; [done..|].
    eapply sublist_NoDup; [|apply fmap_sublist, sublist_filter].
    by rewrite fmap_app.
  - destruct (find (λ session, Session.id session = id) (sessions (state w)))
      as [found|] eqn:Hfind.
    + destruct (deleteSession_found w id found Hfind) as [-> _].
      eapply sublist_NoDup; [done|]. apply fmap_sublist, sublist_filter.
    + rewrite deleteSession_not_found; [done|].
      apply find_None in Hfind. rewrite Forall_forall in Hfind.
      intros (s & -> & Hs)%list_elem_of_fmap. by apply (Hfind s).
Qed.

Lemma ids_unique_kept_witness :
  ids_unique
    (state (dispatch (λ render, createSession render (js "Carol"))
                     two_sessions_world))
  ∧ ids_unique
      (state (dispatch (λ render, deleteSession render (js "a"))
                       two_sessions_world)).
Proof.
  destruct (ids_unique_kept two_sessions_world (js "Carol") (js "a"))
    as [Hcreate Hdelete]; [by_evaluation|].
  split; [apply Hcreate; by_evaluation|exact Hdelete].
Defined.

(** X30: the delete control of a row always removes that row's session,
    whatever the host answers: afterwards the list is shorter, holds no
    session with that id, and holds every session with another id as before,
    in the same order.  Where the list has no row it changes nothing. *)
Theorem onRowDelete_removes (w : World) (row : nat) :
  let w' := dispatch (λ render, onRowDelete render row) w in
  (∀ session, sessions (state w) !! row = Some session →
     sessions (state w')
       = filter (λ s, Session.id s ≠ Session.id session) (sessions (state w))
     ∧ (Session.id session ∉ Session.id <$> sessions (state w'))
     ∧ length (sessions (state w')) < length (sessions (state w)))
  ∧ (sessions (state w) !! row = None → w' = w).
Proof.
  intros w'. subst w'. unfold dispatch, run, onRowDelete.
  destruct (sessions (state w) !! row) as [session|] eqn:Hrow; [|done].
  split; [|done]. intros ? [= <-].
  destruct (find (λ s, Session.id s = Session.id session) (sessions (state w)))
    as [found|] eqn:Hfind.
  2: { apply find_None in Hfind. rewrite Forall_forall in Hfind.
       exfalso. apply (Hfind session); [by eapply list_elem_of_lookup_2|done]. }
  destruct (deleteSession_found w (Session.id session) found Hfind) as [Hs _].
  unfold dispatch, run in Hs. rewrite Hs.
  split; [done|]. split; [apply filter_id_not_elem|].
  eapply (length_filter_lt _ _ session);
    [by eapply list_elem_of_lookup_2|]. intros Hne. by apply Hne.
Qed.
